(** * follow_me.cpp: the follow-me relay of the RControlStation MAVLink bridge

    A shallow embedding of
    [Linux/RControlStationComm/mavlink_followrcs/follow_me.cpp].

    The program is an orchestration script over an external flight-control
    SDK.  The SDK, the vehicle and the location provider are the program's
    environment: they are modelled by a [World], an oracle that answers
    every call of the program and decides which callbacks are invoked and
    when.  Every theorem below holds for all worlds.

    - Callbacks run on threads of the SDK and of the location provider.
      The model runs them, each to its end, at the moments the main thread
      enters an SDK call or goes to sleep; it does not interleave them
      with the statements between two such moments.
    - A loop takes a bound on the number of times its condition is tested;
      a loop that uses the bound up is still running ([OutOfFuel]).
    - What C++ leaves undefined ([front()] of an empty vector, [argv[i]]
      past the arguments, overflow of an [int]) is an outcome of its own
      ([Undefined]).
    - Doubles are IEEE binary64 numbers ([PrimFloat.float]). *)

From Stdlib Require Import ZArith List String Ascii Bool Lia.
From Stdlib Require Import PrimFloat SpecFloat FloatOps FloatAxioms.
Import ListNotations.

Local Open Scope Z_scope.
Set Warnings "-inexact-float".


(** ** Data declared by the SDK headers

    The SDK's enumerations are declared outside this repository.  Only the
    enumerators the program names are spelled out; every other value is
    kept by its numeric code. *)

Module ConnectionResult.
Variant t := Success | Other (code : nat).
Definition eqb (a b : t) : bool :=
  match a, b with
  | Success, Success => true
  | Other x, Other y => Nat.eqb x y
  | _, _ => false
  end.
End ConnectionResult.

Module Action.
Variant Result := Success | Other (code : nat).
Definition eqb (a b : Result) : bool :=
  match a, b with
  | Success, Success => true
  | Other x, Other y => Nat.eqb x y
  | _, _ => false
  end.
End Action.

Module FollowMe.
Variant Result := Success | Other (code : nat).
Definition eqb (a b : Result) : bool :=
  match a, b with
  | Success, Success => true
  | Other x, Other y => Nat.eqb x y
  | _, _ => false
  end.

(** [FollowMe::TargetLocation]; the program sets these two fields and
    leaves the others at their defaults. *)
Record TargetLocation := { latitude_deg : float; longitude_deg : float }.

Variant FollowDirection := Front | OtherDirection (code : nat).

Record Config := {
  min_height_m : float;
  follow_distance_m : float;
  follow_direction : FollowDirection
}.
End FollowMe.

Module Telemetry.
Variant FlightMode := FollowMe | Other (code : nat).
Definition eqb (a b : FlightMode) : bool :=
  match a, b with
  | FollowMe, FollowMe => true
  | Other x, Other y => Nat.eqb x y
  | _, _ => false
  end.

(** [Telemetry::Position].  [relative_altitude_m] is a [float] in the
    header; the program only compares it with a [double] constant, and
    the conversion of a binary32 number to binary64 is exact. *)
Record Position := {
  latitude_deg : float;
  longitude_deg : float;
  absolute_altitude_m : float;
  relative_altitude_m : float
}.
End Telemetry.

(** ** Constants of the program *)

Definition ESC : string := String (ascii_of_nat 27) EmptyString.
Definition ERROR_CONSOLE_TEXT : string := (ESC ++ "[31m")%string.
Definition TELEMETRY_CONSOLE_TEXT : string := (ESC ++ "[34m")%string.
Definition NORMAL_CONSOLE_TEXT : string := (ESC ++ "[0m")%string.

Definition MAX_FOLLOW_DISTANCE_METERS : float := 5%float.
Definition MAX_SECONDS_TO_FOLLOW : Z := 60.
Definition EXIT_FAILURE : Z := 1.
Definition INT_MAX : Z := 2147483647.

(** ** Observable events *)

(** What is written to a stream with [<<]. *)
Variant Fragment :=
| Str (s : string)
| Dbl (d : float)
| U64 (n : Z)
| Mode (m : Telemetry.FlightMode)
| ConnRes (r : ConnectionResult.t)
| ActRes (r : Action.Result)
| FmRes (r : FollowMe.Result)
| Endl.

(** What the environment may hand to a registered callback. *)
Variant Delivery :=
| Discovered (uuid : Z)
| FlightModeUpdate (flight_mode : Telemetry.FlightMode)
| LocationFix (lat lon : float).

(** One entry per call that leaves the program, with the answer it got. *)
Variant Event :=
| AddAnyConnection (url : string) (r : ConnectionResult.t)
| RegisterOnDiscover
| SystemUuids (uuids : list Z)
| GetSystem (uuid : Z)
| HealthAllOk (b : bool)
| Armed (b : bool)
| InAir (b : bool)
| GetPosition (p : Telemetry.Position)
| Arm (r : Action.Result)
| Takeoff (r : Action.Result)
| Land (r : Action.Result)
| SetConfig (c : FollowMe.Config) (r : FollowMe.Result)
| Start (r : FollowMe.Result)
| Stop (r : FollowMe.Result)
| SubscribeFlightMode (on : bool)
| GetLastLocation (l : FollowMe.TargetLocation)
| SetTargetLocation (l : FollowMe.TargetLocation)
| RequestLocationUpdates (host : string) (port : Z) (id : Z)
| IsRunning (b : bool)
| SleepFor (seconds : Z)
| Cout (text : list Fragment)
| Cerr (text : list Fragment)
| Invoke (d : Delivery).

(** The application thread runs [main]; callbacks run on threads of the
    SDK and of the location provider. *)
Variant Thread := MainThread | CallbackThread.

Definition is_main (t : Thread) : bool :=
  match t with MainThread => true | CallbackThread => false end.

(** ** The environment *)

(** The answer to a call is a function of the number of events that
    happened before it, so a world can answer every call differently.
    [inbox] lists the callbacks the environment wants to run while the
    main thread is inside its next SDK call. *)
Record World := {
  add_any_connection_at : nat -> string -> ConnectionResult.t;
  system_uuids_at : nat -> list Z;
  health_all_ok_at : nat -> bool;
  armed_at : nat -> bool;
  in_air_at : nat -> bool;
  position_at : nat -> Telemetry.Position;
  arm_at : nat -> Action.Result;
  takeoff_at : nat -> Action.Result;
  land_at : nat -> Action.Result;
  set_config_at : nat -> FollowMe.Result;
  start_at : nat -> FollowMe.Result;
  stop_at : nat -> FollowMe.Result;
  last_location_at : nat -> FollowMe.TargetLocation;
  is_running_at : nat -> bool;
  inbox : nat -> list Delivery
}.

(** ** Program state *)

Record State := {
  log : list (Thread * Event);      (* everything that happened, oldest first *)
  thread : Thread;                  (* who is running *)
  discovered_system : bool;         (* the local of main captured by reference *)
  count : Z;                        (* static int count *)
  on_discover_registered : bool;    (* dc.register_on_discover was called *)
  flight_mode_subscribed : bool;    (* a flight-mode callback is installed *)
  location_updates_requested : bool (* request_location_updates was called *)
}.

Definition initial_state : State :=
  {| log := []; thread := MainThread; discovered_system := false; count := 0;
     on_discover_registered := false; flight_mode_subscribed := false;
     location_updates_requested := false |}.

Definition now (st : State) : nat := List.length (log st).

Definition emit (ev : Event) (st : State) : State :=
  {| log := log st ++ [(thread st, ev)]; thread := thread st;
     discovered_system := discovered_system st; count := count st;
     on_discover_registered := on_discover_registered st;
     flight_mode_subscribed := flight_mode_subscribed st;
     location_updates_requested := location_updates_requested st |}.

Definition with_thread (t : Thread) (st : State) : State :=
  {| log := log st; thread := t;
     discovered_system := discovered_system st; count := count st;
     on_discover_registered := on_discover_registered st;
     flight_mode_subscribed := flight_mode_subscribed st;
     location_updates_requested := location_updates_requested st |}.

Definition with_discovered_system (b : bool) (st : State) : State :=
  {| log := log st; thread := thread st;
     discovered_system := b; count := count st;
     on_discover_registered := on_discover_registered st;
     flight_mode_subscribed := flight_mode_subscribed st;
     location_updates_requested := location_updates_requested st |}.

Definition with_count (c : Z) (st : State) : State :=
  {| log := log st; thread := thread st;
     discovered_system := discovered_system st; count := c;
     on_discover_registered := on_discover_registered st;
     flight_mode_subscribed := flight_mode_subscribed st;
     location_updates_requested := location_updates_requested st |}.

Definition with_on_discover (b : bool) (st : State) : State :=
  {| log := log st; thread := thread st;
     discovered_system := discovered_system st; count := count st;
     on_discover_registered := b;
     flight_mode_subscribed := flight_mode_subscribed st;
     location_updates_requested := location_updates_requested st |}.

Definition with_flight_mode_subscribed (b : bool) (st : State) : State :=
  {| log := log st; thread := thread st;
     discovered_system := discovered_system st; count := count st;
     on_discover_registered := on_discover_registered st;
     flight_mode_subscribed := b;
     location_updates_requested := location_updates_requested st |}.

Definition with_location_updates (b : bool) (st : State) : State :=
  {| log := log st; thread := thread st;
     discovered_system := discovered_system st; count := count st;
     on_discover_registered := on_discover_registered st;
     flight_mode_subscribed := flight_mode_subscribed st;
     location_updates_requested := b |}.

(** The events of the main thread, oldest first. *)
Definition main_events (l : list (Thread * Event)) : list Event :=
  map snd (filter (fun e => is_main (fst e)) l).

Definition mlog (st : State) : list Event := main_events (log st).

(** ** The monad of the program *)

(** A computation ends with a value, with a call of [exit], in undefined
    behaviour, or is still running when the model's loop bound is used up. *)
Variant Outcome (A : Type) :=
| Val (a : A) (st : State)
| Exit (code : Z) (st : State)
| Undefined (st : State)
| OutOfFuel (st : State).

Arguments Val {A} a st.
Arguments Exit {A} code st.
Arguments Undefined {A} st.
Arguments OutOfFuel {A} st.

Definition M (A : Type) : Type := State -> Outcome A.

Definition ret {A} (a : A) : M A := fun st => Val a st.

Definition bind {A B} (m : M A) (k : A -> M B) : M B :=
  fun st =>
    match m st with
    | Val a st' => k a st'
    | Exit c st' => Exit c st'
    | Undefined st' => Undefined st'
    | OutOfFuel st' => OutOfFuel st'
    end.

Declare Scope prog_scope.
Delimit Scope prog_scope with prog.
Notation "x <- m ;; k" := (bind m (fun x => k))
  (at level 61, m at next level, right associativity) : prog_scope.
Notation "m ;; k" := (bind m (fun _ => k))
  (at level 61, right associativity) : prog_scope.
Local Open Scope prog_scope.

Definition exit {A} (code : Z) : M A := fun st => Exit code st.
Definition undefined {A} : M A := fun st => Undefined st.
Definition out_of_fuel {A} : M A := fun st => OutOfFuel st.

Definition final_state {A} (o : Outcome A) : State :=
  match o with
  | Val _ st | Exit _ st | Undefined st | OutOfFuel st => st
  end.

(** Loops.  [fuel] bounds the number of times the condition is tested. *)
Variant LoopCtl := Continue | Break.

Fixpoint while (fuel : nat) (cond : M bool) (body : M LoopCtl) : M unit :=
  match fuel with
  | O => out_of_fuel
  | S fuel' =>
      b <- cond ;;
      if b then
        c <- body ;;
        match c with
        | Break => ret tt
        | Continue => while fuel' cond body
        end
      else ret tt
  end.

(** ** The program *)

Section Program.

(** [rcs_location_provider.h] declares these two constants; the header is
    not part of the sources at hand, so every result holds for any value. *)
Variable LATITUDE_DEG_PER_METER : float.
Variable LONGITUDE_DEG_PER_METER : float.

Variable w : World.

(** *** Calls into the environment

    Each call appends one event to the log; what the world answers
    depends on the length of the log at that moment. *)

Definition call {A} (answer : nat -> A) (ev : A -> Event) : M A :=
  fun st => let a := answer (now st) in Val a (emit (ev a) st).

Definition cout (text : list Fragment) : M unit :=
  fun st => Val tt (emit (Cout text) st).

Definition cerr (text : list Fragment) : M unit :=
  fun st => Val tt (emit (Cerr text) st).

Definition sleep_for (seconds : Z) : M unit :=
  fun st => Val tt (emit (SleepFor seconds) st).

Definition dc_add_any_connection (url : string) : M ConnectionResult.t :=
  call (fun t => add_any_connection_at w t url) (AddAnyConnection url).

Definition dc_register_on_discover : M unit :=
  fun st => Val tt (with_on_discover true (emit RegisterOnDiscover st)).

Definition dc_system_uuids : M (list Z) :=
  call (system_uuids_at w) SystemUuids.

Definition dc_system (uuid : Z) : M unit :=
  fun st => Val tt (emit (GetSystem uuid) st).

Definition telemetry_health_all_ok : M bool :=
  call (health_all_ok_at w) HealthAllOk.

Definition telemetry_armed : M bool := call (armed_at w) Armed.

Definition telemetry_in_air : M bool := call (in_air_at w) InAir.

Definition telemetry_position : M Telemetry.Position :=
  call (position_at w) GetPosition.

Definition telemetry_subscribe_flight_mode (on : bool) : M unit :=
  fun st =>
    Val tt (with_flight_mode_subscribed on (emit (SubscribeFlightMode on) st)).

Definition action_arm : M Action.Result := call (arm_at w) Arm.

Definition action_takeoff : M Action.Result := call (takeoff_at w) Takeoff.

Definition action_land : M Action.Result := call (land_at w) Land.

Definition follow_me_set_config (c : FollowMe.Config) : M FollowMe.Result :=
  call (set_config_at w) (SetConfig c).

Definition follow_me_start : M FollowMe.Result := call (start_at w) Start.

Definition follow_me_stop : M FollowMe.Result := call (stop_at w) Stop.

Definition follow_me_get_last_location : M FollowMe.TargetLocation :=
  call (last_location_at w) GetLastLocation.

Definition follow_me_set_target_location (l : FollowMe.TargetLocation)
  : M unit :=
  fun st => Val tt (emit (SetTargetLocation l) st).

Definition location_provider_request_location_updates
  (host : string) (port id : Z) : M unit :=
  fun st =>
    Val tt (with_location_updates true
              (emit (RequestLocationUpdates host port id) st)).

Definition location_provider_is_running : M bool :=
  call (is_running_at w) IsRunning.

(** *** Variables of the program *)

Definition get_discovered_system : M bool :=
  fun st => Val (discovered_system st) st.

Definition set_discovered_system (b : bool) : M unit :=
  fun st => Val tt (with_discovered_system b st).

(** [++count] on an [int]; overflow of a signed integer is undefined. *)
Definition pre_increment_count : M Z :=
  fun st =>
    if count st =? INT_MAX then Undefined st
    else Val (count st + 1) (with_count (count st + 1) st).

(** [argv[i]] *)
Definition argv_at (argv : list string) (i : nat) : M string :=
  match nth_error argv i with
  | Some s => ret s
  | None => undefined
  end.

(** *** Helper functions of the source *)

Definition usage (bin_name : string) : M unit :=
  cout [Str NORMAL_CONSOLE_TEXT; Str "Usage : "; Str bin_name;
        Str " <connection_url>"; Endl;
        Str "Connection URL format should be :"; Endl;
        Str " For TCP : tcp://[server_host][:server_port]"; Endl;
        Str " For UDP : udp://[bind_host][:bind_port]"; Endl;
        Str " For Serial : serial:///path/to/serial/dev[:baudrate]"; Endl;
        Str "For example, to connect to the simulator use URL: udp://:14540";
        Endl].

Definition action_error_exit (result : Action.Result) (message : string)
  : M unit :=
  if negb (Action.eqb result Action.Success) then
    cerr [Str ERROR_CONSOLE_TEXT; Str message; ActRes result;
          Str NORMAL_CONSOLE_TEXT; Endl] ;;
    exit EXIT_FAILURE
  else ret tt.

Definition follow_me_error_exit (result : FollowMe.Result) (message : string)
  : M unit :=
  if negb (FollowMe.eqb result FollowMe.Success) then
    cerr [Str ERROR_CONSOLE_TEXT; Str message; FmRes result;
          Str NORMAL_CONSOLE_TEXT; Endl] ;;
    exit EXIT_FAILURE
  else ret tt.

Definition connection_error_exit (result : ConnectionResult.t)
  (message : string) : M unit :=
  if negb (ConnectionResult.eqb result ConnectionResult.Success) then
    cerr [Str ERROR_CONSOLE_TEXT; Str message; ConnRes result;
          Str NORMAL_CONSOLE_TEXT; Endl] ;;
    exit EXIT_FAILURE
  else ret tt.

(** *** The three callbacks *)

(** The lambda given to [register_on_discover]. *)
Definition on_discover (uuid : Z) : M unit :=
  cout [Str "Discovered system with UUID: "; U64 uuid; Endl] ;;
  set_discovered_system true.

(** The lambda given to [subscribe_flight_mode]. *)
Definition on_flight_mode (flight_mode : Telemetry.FlightMode) : M unit :=
  (if negb (Telemetry.eqb flight_mode Telemetry.FollowMe) then
     cout [Str "Flight mode was changed externally! Exiting.";
           Str (String (ascii_of_nat 10) EmptyString)] ;;
     exit 0
   else ret tt) ;;
  last_location <- follow_me_get_last_location ;;
  cout [Str "[FlightMode: "; Mode flight_mode; Str "] Vehicle is at: ";
        Dbl (FollowMe.latitude_deg last_location); Str ", ";
        Dbl (FollowMe.longitude_deg last_location); Str " degrees."; Endl].

(** The sanity check of the location callback. *)
Definition within_follow_distance (lat_diff lon_diff : float) : bool :=
  (lat_diff / LATITUDE_DEG_PER_METER <? MAX_FOLLOW_DISTANCE_METERS)%float
  && (lon_diff / LONGITUDE_DEG_PER_METER <? MAX_FOLLOW_DISTANCE_METERS)%float.

(** The lambda given to [request_location_updates]. *)
Definition on_location (lat lon : float) : M unit :=
  let target_location :=
    {| FollowMe.latitude_deg := lat; FollowMe.longitude_deg := lon |} in
  p <- telemetry_position ;;
  let lat_diff :=
    abs (Telemetry.latitude_deg p - FollowMe.latitude_deg target_location) in
  p' <- telemetry_position ;;
  let lon_diff :=
    abs (Telemetry.longitude_deg p' - FollowMe.longitude_deg target_location) in
  if within_follow_distance lat_diff lon_diff then
    follow_me_set_target_location target_location
  else
    cout [Str "Warning: skipped position ";
          Dbl (FollowMe.latitude_deg target_location); Str ", ";
          Dbl (FollowMe.longitude_deg target_location); Endl].

(** *** Delivery of callbacks

    A callback runs only once it has been registered.  It runs to its end
    on its own thread while the main thread is inside an SDK call or
    asleep; [exit] inside a callback ends the process. *)

Definition callback_enabled (d : Delivery) (st : State) : bool :=
  match d with
  | Discovered _ => on_discover_registered st
  | FlightModeUpdate _ => flight_mode_subscribed st
  | LocationFix _ _ => location_updates_requested st
  end.

Definition callback (d : Delivery) : M unit :=
  match d with
  | Discovered uuid => on_discover uuid
  | FlightModeUpdate flight_mode => on_flight_mode flight_mode
  | LocationFix lat lon => on_location lat lon
  end.

Definition invoke (d : Delivery) : M unit :=
  fun st => Val tt (emit (Invoke d) st).

Definition deliver (d : Delivery) : M unit :=
  fun st =>
    if callback_enabled d st then
      match (invoke d ;; callback d) (with_thread CallbackThread st) with
      | Val _ st' => Val tt (with_thread (thread st) st')
      | o => o
      end
    else Val tt st.

Fixpoint deliver_all (ds : list Delivery) : M unit :=
  match ds with
  | [] => ret tt
  | d :: ds' => deliver d ;; deliver_all ds'
  end.

(** The main thread enters the SDK: pending callbacks run first. *)
Definition yield : M unit := fun st => deliver_all (inbox w (now st)) st.

Definition sdk {A} (m : M A) : M A := yield ;; m.

(** *** [main], block by block *)

(** Lines 73-92: wait for a system and pick it.  The three plugin objects
    made from the system (lines 90-92) are the receivers of the calls
    named [action_], [follow_me_] and [telemetry_] below. *)
Definition discover (fuel : nat) : M Z :=
  cout [Str "Waiting to discover system..."; Endl] ;;
  sdk dc_register_on_discover ;;
  while fuel (d <- get_discovered_system ;; ret (negb d))
             (sdk (sleep_for 1) ;; ret Continue) ;;
  uuids <- sdk dc_system_uuids ;;
  (if (1 <? List.length uuids)%nat then
     cout [Str "Discovered more than one system! Exiting."; Endl] ;;
     exit 1
   else ret tt) ;;
  uuids' <- sdk dc_system_uuids ;;
  match uuids' with
  | [] => undefined
  | uuid :: _ => sdk (dc_system uuid) ;; ret uuid
  end.

(** Lines 94-114: wait for health, arm, take off. *)
Definition preflight (fuel : nat) : M unit :=
  while fuel (ok <- sdk telemetry_health_all_ok ;; ret (negb ok))
             (cout [Str "Waiting for system to be ready"; Endl] ;;
              sdk (sleep_for 1) ;; ret Continue) ;;
  cout [Str "System is ready"; Endl] ;;
  armed <- sdk telemetry_armed ;;
  (if negb armed then
     arm_result <- sdk action_arm ;;
     action_error_exit arm_result "Arming failed"
   else ret tt) ;;
  cout [Str "Armed"; Endl] ;;
  in_air <- sdk telemetry_in_air ;;
  (if negb in_air then
     takeoff_result <- sdk action_takeoff ;;
     action_error_exit takeoff_result "Takeoff failed" ;;
     while fuel (p <- sdk telemetry_position ;;
                 ret (Telemetry.relative_altitude_m p <? 2.4)%float)
                (sdk (sleep_for 1) ;; ret Continue)
   else ret tt) ;;
  cout [Str "In Air..."; Endl].

(** Lines 116-156: configure and start follow-me, install the watchdog
    and the location callback. *)
Definition start_follow_me : M unit :=
  let config :=
    {| FollowMe.min_height_m := 8%float;
       FollowMe.follow_direction := FollowMe.Front;
       FollowMe.follow_distance_m := 1%float |} in
  _ <- sdk (follow_me_set_config config) ;;
  follow_me_result <- sdk follow_me_start ;;
  follow_me_error_exit follow_me_result "Failed to start FollowMe mode" ;;
  sdk (telemetry_subscribe_flight_mode true) ;;
  sdk (location_provider_request_location_updates "localhost" 65191 0).

(** Lines 158-164: the follow loop. *)
Definition follow_loop (fuel : nat) : M unit :=
  while fuel (sdk location_provider_is_running)
             (sdk (sleep_for 1) ;;
              c <- pre_increment_count ;;
              if MAX_SECONDS_TO_FOLLOW <=? c then ret Break else ret Continue).

(** Lines 166-181: stop follow-me, land, wait until landed. *)
Definition shutdown (fuel : nat) : M Z :=
  follow_me_result <- sdk follow_me_stop ;;
  follow_me_error_exit follow_me_result "Failed to stop FollowMe mode" ;;
  sdk (telemetry_subscribe_flight_mode false) ;;
  land_result <- sdk action_land ;;
  action_error_exit land_result "Landing failed" ;;
  while fuel (sdk telemetry_in_air)
             (cout [Str "waiting until landed"; Endl] ;;
              sdk (sleep_for 1) ;; ret Continue) ;;
  cout [Str "Landed..."; Endl] ;;
  ret 0.

(** Lines 73-164: everything between the connection and the shutdown. *)
Definition approach (fuel : nat) : M unit :=
  _ <- discover fuel ;;
  preflight fuel ;;
  start_follow_me ;;
  follow_loop fuel.

Definition fly (fuel : nat) : M Z :=
  approach fuel ;;
  shutdown fuel.

Definition main (fuel : nat) (argv : list string) : M Z :=
  let argc := Z.of_nat (List.length argv) in
  if argc =? 2 then
    connection_url <- argv_at argv 1 ;;
    connection_result <- sdk (dc_add_any_connection connection_url) ;;
    if negb (ConnectionResult.eqb connection_result ConnectionResult.Success)
    then
      cout [Str ERROR_CONSOLE_TEXT; Str "Connection failed: ";
            ConnRes connection_result; Str NORMAL_CONSOLE_TEXT; Endl] ;;
      ret 1
    else fly fuel
  else
    bin_name <- argv_at argv 0 ;;
    usage bin_name ;;
    ret 1.

End Program.

(** ** Vocabulary of the statements *)

(** The line the watchdog prints before it ends the process. *)
Definition watchdog_text : list Fragment :=
  [Str "Flight mode was changed externally! Exiting.";
   Str (String (ascii_of_nat 10) EmptyString)].

(** The warning of the location callback. *)
Definition skipped_text (lat lon : float) : list Fragment :=
  [Str "Warning: skipped position "; Dbl lat; Str ", "; Dbl lon; Endl].

(** The events of a callback that runs to its end: a flight-mode update
    other than FollowMe is not among them. *)
Definition callback_event (ev : Event) : bool :=
  match ev with
  | Invoke (FlightModeUpdate m) => Telemetry.eqb m Telemetry.FollowMe
  | Invoke _ | Cout _ | GetPosition _ | GetLastLocation _
  | SetTargetLocation _ => true
  | _ => false
  end.

Definition on_callback_thread (evs : list Event) : list (Thread * Event) :=
  map (pair CallbackThread) evs.

Definition on_main_thread (evs : list Event) : list (Thread * Event) :=
  map (pair MainThread) evs.

(** [st'] is [st] after some callbacks ran to their end. *)
Record callbacks_ran (st st' : State) : Prop := {
  cr_log :
    exists evs,
      log st' = log st ++ on_callback_thread evs /\
      forallb callback_event evs = true /\
      (discovered_system st' = discovered_system st \/
       discovered_system st' = true /\
       exists uuid, In (Invoke (Discovered uuid)) evs);
  cr_thread : thread st' = thread st;
  cr_count : count st' = count st;
  cr_on_discover : on_discover_registered st' = on_discover_registered st;
  cr_flight_mode : flight_mode_subscribed st' = flight_mode_subscribed st;
  cr_location :
    location_updates_requested st' = location_updates_requested st;
  cr_discovered : discovered_system st = true -> discovered_system st' = true
}.

(** [st'] is [st] after some callbacks ran and the watchdog then saw a
    flight mode other than FollowMe. *)
Definition watchdog_fired (st st' : State) : Prop :=
  flight_mode_subscribed st = true /\
  exists st1 flight_mode,
    callbacks_ran st st1 /\
    flight_mode <> Telemetry.FollowMe /\
    log st' = log st1 ++
      on_callback_thread [Invoke (FlightModeUpdate flight_mode);
                          Cout watchdog_text].

(** The text [usage] prints. *)
Definition usage_text (bin_name : string) : list Fragment :=
  [Str NORMAL_CONSOLE_TEXT; Str "Usage : "; Str bin_name;
   Str " <connection_url>"; Endl;
   Str "Connection URL format should be :"; Endl;
   Str " For TCP : tcp://[server_host][:server_port]"; Endl;
   Str " For UDP : udp://[bind_host][:bind_port]"; Endl;
   Str " For Serial : serial:///path/to/serial/dev[:baudrate]"; Endl;
   Str "For example, to connect to the simulator use URL: udp://:14540";
   Endl].

(** [n] rounds of a polling loop. *)
Definition rounds (round : list Event) (n : nat) : list Event :=
  List.concat (repeat round n).

(** One round of the loop that waits for the landing. *)
Definition waiting_to_land : list Event :=
  [InAir true; Cout [Str "waiting until landed"; Endl]; SleepFor 1].

(** One round of the follow loop. *)
Definition following_round : list Event := [IsRunning true; SleepFor 1].

(** One round of the loop that waits for the health checks. *)
Definition waiting_for_health : list Event :=
  [HealthAllOk false; Cout [Str "Waiting for system to be ready"; Endl];
   SleepFor 1].

(** The test of the loop that waits for the takeoff altitude. *)
Definition below_takeoff_altitude (p : Telemetry.Position) : bool :=
  (Telemetry.relative_altitude_m p <? 2.4)%float.

(** The rounds of that loop, one per position that was too low. *)
Definition climbing (ps : list Telemetry.Position) : list Event :=
  flat_map (fun p => [GetPosition p; SleepFor 1]) ps.

(** What the main thread does between the [in_air] test and the line
    "In Air...": nothing if the vehicle is in the air already; otherwise
    the takeoff command and one position poll per second, up to the first
    position that is not below the takeoff altitude.  A relative altitude
    that is a number and not below 2.4 is at least 2.4. *)
Definition takeoff_and_climb (in_air : bool) (climb : list Event) : Prop :=
  if in_air then climb = []
  else
    exists ps p,
      forallb below_takeoff_altitude ps = true /\
      below_takeoff_altitude p = false /\
      (is_nan (Telemetry.relative_altitude_m p) = false ->
       (2.4 <=? Telemetry.relative_altitude_m p)%float = true) /\
      climb = Takeoff Action.Success :: climbing ps ++ [GetPosition p].

(** The main-thread events of the preflight block up to the [in_air]
    test: [n] rounds of waiting for the health checks, then the arming. *)
Definition preflight_head (n : nat) (armed : bool) : list Event :=
  rounds waiting_for_health n ++
  [HealthAllOk true; Cout [Str "System is ready"; Endl]; Armed armed] ++
  (if armed then [] else [Arm Action.Success]) ++
  [Cout [Str "Armed"; Endl]].

(** Between [st] and [st'] the discovery callback was invoked. *)
Definition discovery_seen (st st' : State) : Prop :=
  exists new uuid,
    log st' = log st ++ new /\
    In (CallbackThread, Invoke (Discovered uuid)) new.

(** [st'] is a later state of the same run as [st]. *)
Definition extends (st st' : State) : Prop :=
  exists new, log st' = log st ++ new.

(** The main-thread events of the discovery block up to the test of the
    number of systems, after [n] seconds of waiting. *)
Definition discovery_head (n : nat) : list Event :=
  [Cout [Str "Waiting to discover system..."; Endl]; RegisterOnDiscover] ++
  rounds [SleepFor 1] n.

(** The configuration [main] hands to the follow-me plugin. *)
Definition follow_config : FollowMe.Config :=
  {| FollowMe.min_height_m := 8%float;
     FollowMe.follow_direction := FollowMe.Front;
     FollowMe.follow_distance_m := 1%float |}.

(** A command whose result is not Success. *)
Definition failed_command (ev : Event) : bool :=
  match ev with
  | Arm r | Takeoff r | Land r => negb (Action.eqb r Action.Success)
  | Start r | Stop r => negb (FollowMe.eqb r FollowMe.Success)
  | _ => false
  end.

Definition is_land (ev : Event) : bool :=
  match ev with Land _ => true | _ => false end.

Definition is_stop (ev : Event) : bool :=
  match ev with Stop _ => true | _ => false end.

(** The error line of the [*_error_exit] helpers. *)
Definition action_error_text (message : string) (r : Action.Result)
  : list Fragment :=
  [Str ERROR_CONSOLE_TEXT; Str message; ActRes r; Str NORMAL_CONSOLE_TEXT;
   Endl].

Definition follow_me_error_text (message : string) (r : FollowMe.Result)
  : list Fragment :=
  [Str ERROR_CONSOLE_TEXT; Str message; FmRes r; Str NORMAL_CONSOLE_TEXT;
   Endl].

(** *** Orderly runs

    A log entry is in order if it is an event of a callback that ran to
    its end, or an event of the main thread that [allowed] admits and
    that is not a failed command. *)
Definition entry_ok (allowed : Event -> bool) (e : Thread * Event) : bool :=
  match fst e with
  | MainThread => allowed (snd e) && negb (failed_command (snd e))
  | CallbackThread => callback_event (snd e)
  end.

(** The main thread is running and everything so far is in order. *)
Definition orderly (allowed : Event -> bool) (st : State) : Prop :=
  thread st = MainThread /\ forallb (entry_ok allowed) (log st) = true.

(** The three ways the process calls [exit], with the last entries of the
    log in each case: the watchdog (status 0), more than one system
    (status 1), a failed command (status [EXIT_FAILURE]). *)
Variant exit_tail (allowed : Event -> bool) (code : Z)
  (tail : list (Thread * Event)) : Prop :=
| exit_by_watchdog (flight_mode : Telemetry.FlightMode) :
    code = 0 ->
    flight_mode <> Telemetry.FollowMe ->
    tail = on_callback_thread
             [Invoke (FlightModeUpdate flight_mode); Cout watchdog_text] ->
    exit_tail allowed code tail
| exit_too_many_systems :
    code = 1 ->
    tail = on_main_thread
             [Cout [Str "Discovered more than one system! Exiting."; Endl]] ->
    exit_tail allowed code tail
| exit_failed_command (ev : Event) (text : list Fragment) :
    code = EXIT_FAILURE ->
    failed_command ev = true ->
    allowed ev = true ->
    tail = on_main_thread [ev; Cerr text] ->
    exit_tail allowed code tail.

(** The process has exited with [code]: everything before the last
    entries is in order. *)
Definition exited (allowed : Event -> bool) (code : Z) (st : State) : Prop :=
  exists l tail,
    log st = l ++ tail /\
    forallb (entry_ok allowed) l = true /\
    exit_tail allowed code tail.

(** A command was sent and its result has not been looked at yet. *)
Definition pending (allowed : Event -> bool) (ev : Event) (st : State)
  : Prop :=
  thread st = MainThread /\
  allowed ev = true /\
  exists l, log st = l ++ [(MainThread, ev)] /\
            forallb (entry_ok allowed) l = true.

(** [m], started in a state where [P] holds, ends with a value and [Q],
    or exits as described by [exited], or is stuck in an orderly state. *)
Definition triple (allowed : Event -> bool) {A} (P : State -> Prop)
  (m : M A) (Q : A -> State -> Prop) : Prop :=
  forall st, P st ->
    match m st with
    | Val a st' => Q a st'
    | Exit c st' => exited allowed c st'
    | Undefined st' | OutOfFuel st' => orderly allowed st'
    end.

(** No restriction on the events of the main thread. *)
Definition any_event (ev : Event) : bool := true.

(** The events of the main thread before the shutdown block. *)
Definition before_shutdown (ev : Event) : bool :=
  negb (is_stop ev) && negb (is_land ev).

(** *** Vocabulary of the further properties *)

(** The line the flight-mode callback prints while the mode is FollowMe. *)
Definition flight_mode_text (flight_mode : Telemetry.FlightMode)
  (last_location : FollowMe.TargetLocation) : list Fragment :=
  [Str "[FlightMode: "; Mode flight_mode; Str "] Vehicle is at: ";
   Dbl (FollowMe.latitude_deg last_location); Str ", ";
   Dbl (FollowMe.longitude_deg last_location); Str " degrees."; Endl].

(** What a callback of this program can do at all: be invoked, print on
    [cout], read the position or the last location, set the target. *)
Definition callback_kind (ev : Event) : bool :=
  match ev with
  | Invoke _ | Cout _ | GetPosition _ | GetLastLocation _
  | SetTargetLocation _ => true
  | _ => false
  end.

Definition is_cerr (ev : Event) : bool :=
  match ev with Cerr _ => true | _ => false end.

(** Every event of the main thread but a line on [cerr]. *)
Definition not_cerr (ev : Event) : bool := negb (is_cerr ev).


(** The answer recorded in an event that was logged at time [t] is the
    answer of the world at that time. *)
Definition answered_by (w : World) (t : nat) (ev : Event) : Prop :=
  match ev with
  | AddAnyConnection url r => r = add_any_connection_at w t url
  | SystemUuids uuids => uuids = system_uuids_at w t
  | HealthAllOk b => b = health_all_ok_at w t
  | Armed b => b = armed_at w t
  | InAir b => b = in_air_at w t
  | GetPosition p => p = position_at w t
  | Arm r => r = arm_at w t
  | Takeoff r => r = takeoff_at w t
  | Land r => r = land_at w t
  | SetConfig _ r => r = set_config_at w t
  | Start r => r = start_at w t
  | Stop r => r = stop_at w t
  | GetLastLocation l => l = last_location_at w t
  | IsRunning b => b = is_running_at w t
  | _ => True
  end.

(** From time [k] on, every answer in the log is the world's: nothing
    was logged that the vehicle, the SDK or the location provider did
    not say. *)
Definition answers_since (w : World) (k : nat) (l : list (Thread * Event))
  : Prop :=
  forall t th ev,
    (k <= t)%nat -> nth_error l t = Some (th, ev) -> answered_by w t ev.

(** Every target location in the log was set by a callback, right after
    two reads of the vehicle position on the same thread, and is within
    the follow distance of them: the latitude of the first read and the
    longitude of the second. *)
Definition targets_checked (LAT LON : float) (l : list (Thread * Event))
  : Prop :=
  forall i t target,
    nth_error l i = Some (t, SetTargetLocation target) ->
    exists j p p',
      i = S (S j) /\
      t = CallbackThread /\
      nth_error l j = Some (CallbackThread, GetPosition p) /\
      nth_error l (S j) = Some (CallbackThread, GetPosition p') /\
      (abs (Telemetry.latitude_deg p - FollowMe.latitude_deg target) / LAT
         <? MAX_FOLLOW_DISTANCE_METERS)%float = true /\
      (abs (Telemetry.longitude_deg p' - FollowMe.longitude_deg target) / LON
         <? MAX_FOLLOW_DISTANCE_METERS)%float = true.

Definition sets_no_target (ev : Event) : bool :=
  match ev with SetTargetLocation _ => false | _ => true end.

(** [m] keeps the property [J] of the log, however it ends. *)
Definition keeps (J : list (Thread * Event) -> Prop) {A} (m : M A) : Prop :=
  forall st, J (log st) -> J (log (final_state (m st))).

(** What varies between two flights that run to their end: how long the
    main thread waited, what the vehicle answered. *)
Record Flight := {
  discovery_wait : nat;
  uuids_counted : list Z;
  uuids_taken : list Z;
  system_uuid : Z;
  health_wait : nat;
  was_armed : bool;
  was_in_air : bool;
  climb : list Event;
  config_result : FollowMe.Result;
  seconds_followed : nat;
  landing_wait : nat }.

Definition flight_ok (f : Flight) : Prop :=
  (List.length (uuids_counted f) <= 1)%nat /\
  hd_error (uuids_taken f) = Some (system_uuid f) /\
  takeoff_and_climb (was_in_air f) (climb f) /\
  (seconds_followed f <= Z.to_nat MAX_SECONDS_TO_FOLLOW)%nat.

(** The steps of the main thread in such a flight, after the connection. *)
Definition flight_trace (f : Flight) : list Event :=
  discovery_head (discovery_wait f) ++
  [SystemUuids (uuids_counted f); SystemUuids (uuids_taken f);
   GetSystem (system_uuid f)] ++
  preflight_head (health_wait f) (was_armed f) ++
  [InAir (was_in_air f)] ++ climb f ++ [Cout [Str "In Air..."; Endl]] ++
  [SetConfig follow_config (config_result f); Start FollowMe.Success;
   SubscribeFlightMode true; RequestLocationUpdates "localhost" 65191 0] ++
  rounds following_round (seconds_followed f) ++
  (if (seconds_followed f =? Z.to_nat MAX_SECONDS_TO_FOLLOW)%nat then []
   else [IsRunning false]) ++
  [Stop FollowMe.Success; SubscribeFlightMode false; Land Action.Success] ++
  rounds waiting_to_land (landing_wait f) ++
  [InAir false; Cout [Str "Landed..."; Endl]].

(** The line [main] prints when the connection fails. *)
Definition connection_failed_text (c : ConnectionResult.t) : list Fragment :=
  [Str ERROR_CONSOLE_TEXT; Str "Connection failed: "; ConnRes c;
   Str NORMAL_CONSOLE_TEXT; Endl].

(** ** Sample worlds *)

Module Sample.

(** Roughly one metre of latitude and of longitude at 60 degrees north. *)
Definition lat_deg_per_meter : float := 0.000009%float.
Definition lon_deg_per_meter : float := 0.000018%float.

Definition hovering : Telemetry.Position :=
  {| Telemetry.latitude_deg := 57%float;
     Telemetry.longitude_deg := 12%float;
     Telemetry.absolute_altitude_m := 40%float;
     Telemetry.relative_altitude_m := 3%float |}.

(** A vehicle that is ready and on the ground, and obeys every command
    but possibly the connection and the stop of follow-me. *)
Definition make (connection : ConnectionResult.t) (stop : FollowMe.Result)
  (running : bool) (deliveries : nat -> list Delivery) : World :=
  {| add_any_connection_at := fun _ _ => connection;
     system_uuids_at := fun _ => [7];
     health_all_ok_at := fun _ => true;
     armed_at := fun _ => false;
     in_air_at := fun _ => false;
     position_at := fun _ => hovering;
     arm_at := fun _ => Action.Success;
     takeoff_at := fun _ => Action.Success;
     land_at := fun _ => Action.Success;
     set_config_at := fun _ => FollowMe.Success;
     start_at := fun _ => FollowMe.Success;
     stop_at := fun _ => stop;
     last_location_at := fun _ =>
       {| FollowMe.latitude_deg := 57%float;
          FollowMe.longitude_deg := 12%float |};
     is_running_at := fun _ => running;
     inbox := deliveries |}.

(** Nothing is ever delivered to a callback; the location provider runs
    for ever. *)
Definition calm : World :=
  make ConnectionResult.Success FollowMe.Success true (fun _ => []).

(** The connection attempt fails. *)
Definition unreachable : World :=
  make (ConnectionResult.Other 1) FollowMe.Success true (fun _ => []).

(** One system is discovered while the main thread sleeps for the first
    time. *)
Definition discovering : World :=
  make ConnectionResult.Success FollowMe.Success true
    (fun t => if (t =? 2)%nat then [Discovered 7] else []).

(** After the discovery the environment reports, again and again, a
    flight mode other than FollowMe. *)
Definition interrupted : World :=
  make ConnectionResult.Success FollowMe.Success true
    (fun t => if (t <? 4)%nat then [Discovered 7]
              else [FlightModeUpdate (Telemetry.Other 3)]).

(** The location provider is not running and follow-me refuses to stop. *)
Definition stop_refused : World :=
  make ConnectionResult.Success (FollowMe.Other 5) false
    (fun t => if (t <? 4)%nat then [Discovered 7] else []).

(** The location provider is not running, follow-me stops, and the
    change of flight mode that follows is reported right after the stop,
    before the main thread cancels its subscription. *)
Definition late_change : World :=
  make ConnectionResult.Success FollowMe.Success false
    (fun t => if (t <? 4)%nat then [Discovered 7]
              else if (t =? 24)%nat then [FlightModeUpdate (Telemetry.Other 3)]
              else []).

Definition argv : list string := ["follow_me"; "udp://:14540"]%string.

(** The state of the main thread once both callbacks of the follow
    phase are installed. *)
Definition following : State :=
  with_location_updates true
    (with_flight_mode_subscribed true
       (with_on_discover true (with_discovered_system true initial_state))).

(** One system is discovered and the location provider is not running:
    the flight goes straight from takeoff to landing. *)
Definition uneventful : World :=
  make ConnectionResult.Success FollowMe.Success false
    (fun t => if (t <? 4)%nat then [Discovered 7] else []).

(** As [uneventful], with two fixes reported whenever the main thread is
    inside the SDK: one a metre away from the vehicle, one a degree away. *)
Definition relaying : World :=
  make ConnectionResult.Success FollowMe.Success false
    (fun t => if (t <? 4)%nat then [Discovered 7]
              else [LocationFix 57.00001%float 12.00001%float;
                    LocationFix 58%float 12%float]).

(** The system is reported as discovered again and again. *)
Definition beacon : World :=
  make ConnectionResult.Success FollowMe.Success false
    (fun _ => [Discovered 7]).

(** As [beacon], but the list of systems is empty whenever it is read. *)
Definition vanishing : World :=
  {| add_any_connection_at := add_any_connection_at beacon;
     system_uuids_at := fun _ => [];
     health_all_ok_at := health_all_ok_at beacon;
     armed_at := armed_at beacon;
     in_air_at := in_air_at beacon;
     position_at := position_at beacon;
     arm_at := arm_at beacon;
     takeoff_at := takeoff_at beacon;
     land_at := land_at beacon;
     set_config_at := set_config_at beacon;
     start_at := start_at beacon;
     stop_at := stop_at beacon;
     last_location_at := last_location_at beacon;
     is_running_at := is_running_at beacon;
     inbox := inbox beacon |}.

(** As [beacon], but a second system joins between the two reads of the
    list of systems. *)
Definition joining : World :=
  {| add_any_connection_at := add_any_connection_at beacon;
     system_uuids_at := fun t => if (t <? 9)%nat then [7] else [7; 9];
     health_all_ok_at := health_all_ok_at beacon;
     armed_at := armed_at beacon;
     in_air_at := in_air_at beacon;
     position_at := position_at beacon;
     arm_at := arm_at beacon;
     takeoff_at := takeoff_at beacon;
     land_at := land_at beacon;
     set_config_at := set_config_at beacon;
     start_at := start_at beacon;
     stop_at := stop_at beacon;
     last_location_at := last_location_at beacon;
     is_running_at := is_running_at beacon;
     inbox := inbox beacon |}.



End Sample.

(** * Properties *)

(** ** Equality tests of the enumerations *)

Lemma ConnectionResult_eqb_eq a b : ConnectionResult.eqb a b = true <-> a = b.
Proof.
  destruct a, b; simpl; split; intro H; try congruence.
  - apply Nat.eqb_eq in H. congruence.
  - injection H as ->. apply Nat.eqb_refl.
Qed.

Lemma Action_eqb_eq a b : Action.eqb a b = true <-> a = b.
Proof.
  destruct a, b; simpl; split; intro H; try congruence.
  - apply Nat.eqb_eq in H. congruence.
  - injection H as ->. apply Nat.eqb_refl.
Qed.

Lemma FollowMe_eqb_eq a b : FollowMe.eqb a b = true <-> a = b.
Proof.
  destruct a, b; simpl; split; intro H; try congruence.
  - apply Nat.eqb_eq in H. congruence.
  - injection H as ->. apply Nat.eqb_refl.
Qed.

Lemma FlightMode_eqb_eq a b : Telemetry.eqb a b = true <-> a = b.
Proof.
  destruct a, b; simpl; split; intro H; try congruence.
  - apply Nat.eqb_eq in H. congruence.
  - injection H as ->. apply Nat.eqb_refl.
Qed.

(** ** The log *)

Lemma main_events_app l l' :
  main_events (l ++ l') = main_events l ++ main_events l'.
Proof. unfold main_events. now rewrite filter_app, map_app. Qed.

Lemma main_events_on_callback_thread evs :
  main_events (on_callback_thread evs) = [].
Proof. induction evs as [|ev evs IH]; simpl; auto. Qed.

Lemma main_events_on_main_thread evs :
  main_events (on_main_thread evs) = evs.
Proof. induction evs as [|ev evs IH]; simpl; auto. cbn. now f_equal. Qed.

Lemma mlog_emit ev st :
  mlog (emit ev st) =
  mlog st ++ (if is_main (thread st) then [ev] else []).
Proof.
  unfold mlog; simpl. rewrite main_events_app. f_equal.
  unfold main_events; simpl. now destruct (thread st).
Qed.

Lemma now_emit ev st : now (emit ev st) = S (now st).
Proof. unfold now; simpl. rewrite length_app. simpl. lia. Qed.

(** ** What callbacks can do *)

Lemma callbacks_ran_refl st : callbacks_ran st st.
Proof.
  constructor; auto. exists []. simpl. rewrite app_nil_r. auto.
Qed.

Lemma callbacks_ran_trans st1 st2 st3 :
  callbacks_ran st1 st2 -> callbacks_ran st2 st3 -> callbacks_ran st1 st3.
Proof.
  intros [(e1 & L1 & F1 & D1) T1 C1 O1 M1 R1 S1]
         [(e2 & L2 & F2 & D2) T2 C2 O2 M2 R2 S2].
  constructor; try congruence; auto.
  exists (e1 ++ e2). unfold on_callback_thread in *.
  rewrite map_app, forallb_app, F1, F2, L2, L1, app_assoc.
  repeat split; auto.
  destruct D2 as [D2 | [D2 (u & I2)]].
  - destruct D1 as [D1 | [D1 (u & I1)]].
    + left. congruence.
    + right. split; [congruence|]. exists u. apply in_or_app. auto.
  - right. split; auto. exists u. apply in_or_app. auto.
Qed.

Lemma callbacks_ran_mlog st st' : callbacks_ran st st' -> mlog st' = mlog st.
Proof.
  intros [(evs & L & _) _ _ _ _ _ _]. unfold mlog.
  now rewrite L, main_events_app, main_events_on_callback_thread, app_nil_r.
Qed.

Lemma callbacks_ran_now st st' :
  callbacks_ran st st' -> (now st <= now st')%nat.
Proof.
  intros [(evs & L & _) _ _ _ _ _ _]. unfold now. rewrite L, length_app. lia.
Qed.

Lemma watchdog_fired_mlog st st' : watchdog_fired st st' -> mlog st' = mlog st.
Proof.
  intros [_ (st1 & m & R & _ & L)]. unfold mlog.
  rewrite L, main_events_app, main_events_on_callback_thread, app_nil_r.
  now apply callbacks_ran_mlog.
Qed.

Section Delivery.

Variables LAT LON : float.
Variable w : World.

#[local] Abbreviation deliver := (deliver LAT LON w).
#[local] Abbreviation deliver_all := (deliver_all LAT LON w).
#[local] Abbreviation yield := (yield LAT LON w).
#[local] Abbreviation sdk := (sdk LAT LON w).

(** One delivery either runs a callback to its end or is the watchdog
    ending the process with status 0. *)
Lemma deliver_cases d st :
  (exists st', deliver d st = Val tt st' /\ callbacks_ran st st') \/
  (exists st', deliver d st = Exit 0 st' /\ watchdog_fired st st').
Proof.
  unfold deliver. destruct (callback_enabled d st) eqn:EN.
  2:{ left. eexists; split; eauto using callbacks_ran_refl. }
  destruct d as [uuid | m | lat lon]; simpl in EN.
  - left. eexists; split; [reflexivity|].
    constructor; simpl; auto.
    exists [Invoke (Discovered uuid);
            Cout [Str "Discovered system with UUID: "; U64 uuid; Endl]].
    simpl. rewrite <- app_assoc. repeat split; auto.
    right. split; auto. exists uuid. auto.
  - destruct (Telemetry.eqb m Telemetry.FollowMe) eqn:EM.
    + left. unfold bind, invoke, callback, on_flight_mode, bind. simpl.
      rewrite EM. simpl. eexists; split; [reflexivity|].
      constructor; simpl; auto.
      eexists [Invoke (FlightModeUpdate m); GetLastLocation _; Cout _].
      simpl. rewrite EM. rewrite <- !app_assoc. repeat split; auto.
    + right. unfold bind, invoke, callback, on_flight_mode, bind. simpl.
      rewrite EM. simpl. eexists; split; [reflexivity|].
      split; auto. exists st, m. split; [apply callbacks_ran_refl|].
      split.
      * intros ->. discriminate.
      * simpl. now rewrite <- app_assoc.
  - left. unfold bind, invoke, callback, on_location, bind. simpl.
    match goal with
    | |- context [if ?c then _ else _] => destruct c
    end; simpl; (eexists; split; [reflexivity|]); constructor; simpl; auto.
    + eexists [Invoke (LocationFix lat lon); GetPosition _; GetPosition _;
               SetTargetLocation _].
      simpl. rewrite <- !app_assoc. repeat split; auto.
    + eexists [Invoke (LocationFix lat lon); GetPosition _; GetPosition _;
               Cout _].
      simpl. rewrite <- !app_assoc. repeat split; auto.
Qed.

Lemma watchdog_fired_after st st1 st' :
  callbacks_ran st st1 -> watchdog_fired st1 st' -> watchdog_fired st st'.
Proof.
  intros R [S (st2 & m & R' & NE & L)]. split.
  - destruct R. congruence.
  - exists st2, m. eauto using callbacks_ran_trans.
Qed.

Lemma deliver_all_cases ds st :
  (exists st', deliver_all ds st = Val tt st' /\ callbacks_ran st st') \/
  (exists st', deliver_all ds st = Exit 0 st' /\ watchdog_fired st st').
Proof.
  revert st. induction ds as [|d ds IH]; intro st; simpl.
  - left. eexists; split; [reflexivity | apply callbacks_ran_refl].
  - unfold bind.
    destruct (deliver_cases d st) as [(st1 & -> & R) | (st1 & -> & F)].
    + destruct (IH st1) as [(st2 & -> & R') | (st2 & -> & F')].
      * left. eauto using callbacks_ran_trans.
      * right. eauto using watchdog_fired_after.
    + right. eauto.
Qed.

Lemma yield_cases st :
  (exists st', yield st = Val tt st' /\ callbacks_ran st st') \/
  (exists st', yield st = Exit 0 st' /\ watchdog_fired st st').
Proof. apply deliver_all_cases. Qed.

(** An SDK call of the main thread: callbacks run, then the call. *)
Lemma sdk_cases {A} (op : M A) st :
  (exists st1, callbacks_ran st st1 /\ sdk op st = op st1) \/
  (exists st', watchdog_fired st st' /\ sdk op st = Exit 0 st').
Proof.
  unfold sdk, bind.
  destruct (yield_cases st) as [(st1 & -> & R) | (st1 & -> & F)]; eauto.
Qed.

End Delivery.

(** ** The location callback *)

Section LocationCallback.

Variables LAT LON : float.
Variable w : World.

(** C1: a location fix is forwarded with [set_target_location] if and only
    if the latitude difference divided by [LATITUDE_DEG_PER_METER] and the
    longitude difference divided by [LONGITUDE_DEG_PER_METER] are both
    below 5.0; otherwise the fix is skipped and the warning is printed.
    The callback reads the vehicle position twice, once per coordinate. *)
Theorem location_fix_forwarded_iff st lat lon :
  location_updates_requested st = true ->
  let target :=
    {| FollowMe.latitude_deg := lat; FollowMe.longitude_deg := lon |} in
  let p := position_at w (S (now st)) in
  let p' := position_at w (S (S (now st))) in
  let lat_diff := abs (Telemetry.latitude_deg p - lat) in
  let lon_diff := abs (Telemetry.longitude_deg p' - lon) in
  let near :=
    (lat_diff / LAT <? 5)%float = true /\
    (lon_diff / LON <? 5)%float = true in
  exists st' reaction,
    deliver LAT LON w (LocationFix lat lon) st = Val tt st' /\
    log st' = log st ++
      on_callback_thread [Invoke (LocationFix lat lon);
                          GetPosition p; GetPosition p'; reaction] /\
    (reaction = SetTargetLocation target <-> near) /\
    (reaction = Cout (skipped_text lat lon) <-> ~ near).
Proof.
  intros EN target p p' lat_diff lon_diff near.
  unfold deliver. simpl. rewrite EN.
  unfold bind, invoke, callback, on_location, bind, telemetry_position, call.
  simpl. rewrite !now_emit. simpl.
  change (now (with_thread CallbackThread st)) with (now st).
  fold p p' lat_diff lon_diff target.
  unfold within_follow_distance, MAX_FOLLOW_DISTANCE_METERS.
  subst near.
  destruct (lat_diff / LAT <? 5)%float eqn:E1;
    destruct (lon_diff / LON <? 5)%float eqn:E2; simpl;
    eexists; eexists; (split; [reflexivity|]);
    (split; [simpl; rewrite <- !app_assoc; reflexivity|]);
    split; split;
    try tauto; try discriminate; try (intros [? ?]; discriminate);
    try (intros _; intros [? ?]; discriminate);
    try (intros N; exfalso; apply N; split; reflexivity).
Qed.

End LocationCallback.

Lemma location_fix_forwarded_iff_witness :
  exists st' reaction,
    deliver Sample.lat_deg_per_meter Sample.lon_deg_per_meter Sample.calm
      (LocationFix 57.00001%float 12.00001%float) Sample.following
    = Val tt st' /\
    log st' = log Sample.following ++
      on_callback_thread
        [Invoke (LocationFix 57.00001%float 12.00001%float);
         GetPosition Sample.hovering; GetPosition Sample.hovering;
         reaction] /\
    (reaction = SetTargetLocation
                  {| FollowMe.latitude_deg := 57.00001%float;
                     FollowMe.longitude_deg := 12.00001%float |}
     <-> (abs (57 - 57.00001) / Sample.lat_deg_per_meter <? 5)%float = true /\
         (abs (12 - 12.00001) / Sample.lon_deg_per_meter <? 5)%float = true) /\
    (reaction = Cout (skipped_text 57.00001%float 12.00001%float)
     <-> ~ ((abs (57 - 57.00001) / Sample.lat_deg_per_meter <? 5)%float = true /\
            (abs (12 - 12.00001) / Sample.lon_deg_per_meter <? 5)%float = true)).
Proof.
  apply (location_fix_forwarded_iff Sample.lat_deg_per_meter
           Sample.lon_deg_per_meter Sample.calm Sample.following
           57.00001%float 12.00001%float).
  reflexivity.
Defined.

(** ** Stepping through the main thread *)

Lemma rounds_S round n : rounds round (S n) = round ++ rounds round n.
Proof. reflexivity. Qed.

Lemma while_step fuel cond body :
  while (S fuel) cond body =
  (b <- cond ;;
   if b then
     c <- body ;;
     match c with
     | Break => ret tt
     | Continue => while fuel cond body
     end
   else ret tt)%prog.
Proof. reflexivity. Qed.

Lemma mlog_emit_main ev st :
  thread st = MainThread -> mlog (emit ev st) = mlog st ++ [ev].
Proof. intro T. rewrite mlog_emit, T. reflexivity. Qed.

Lemma not_subscribed_no_watchdog st st' :
  flight_mode_subscribed st = false -> watchdog_fired st st' -> False.
Proof. intros H [S _]. congruence. Qed.

Lemma now_with_thread t st : now (with_thread t st) = now st.
Proof. reflexivity. Qed.

Lemma now_with_discovered_system b st :
  now (with_discovered_system b st) = now st.
Proof. reflexivity. Qed.

Lemma now_with_count c st : now (with_count c st) = now st.
Proof. reflexivity. Qed.

Lemma now_with_on_discover b st : now (with_on_discover b st) = now st.
Proof. reflexivity. Qed.

Lemma now_with_flight_mode_subscribed b st :
  now (with_flight_mode_subscribed b st) = now st.
Proof. reflexivity. Qed.

Lemma now_with_location_updates b st :
  now (with_location_updates b st) = now st.
Proof. reflexivity. Qed.

Lemma mlog_with_discovered_system b st :
  mlog (with_discovered_system b st) = mlog st.
Proof. reflexivity. Qed.

Lemma mlog_with_count c st : mlog (with_count c st) = mlog st.
Proof. reflexivity. Qed.

Lemma mlog_with_on_discover b st : mlog (with_on_discover b st) = mlog st.
Proof. reflexivity. Qed.

Lemma mlog_with_flight_mode_subscribed b st :
  mlog (with_flight_mode_subscribed b st) = mlog st.
Proof. reflexivity. Qed.

Lemma mlog_with_location_updates b st :
  mlog (with_location_updates b st) = mlog st.
Proof. reflexivity. Qed.

Create Rewrite HintDb clock.

#[global] Hint Rewrite now_emit now_with_thread now_with_discovered_system
  now_with_count now_with_on_discover now_with_flight_mode_subscribed
  now_with_location_updates : clock.

Ltac flag := simpl in *; congruence.

Create Rewrite HintDb trace.

#[global] Hint Rewrite mlog_with_discovered_system mlog_with_count
  mlog_with_on_discover mlog_with_flight_mode_subscribed
  mlog_with_location_updates : trace.

#[global] Hint Rewrite mlog_emit_main using flag : trace.

(** Split on what happens while the main thread is inside its next SDK
    call, and record what the callbacks left untouched. *)
Ltac sdk_step R :=
  match goal with
  | |- context [sdk ?a ?b ?c ?op ?st] =>
      let st1 := fresh "st" in
      let F := fresh "F" in
      let E := fresh "E" in
      destruct (sdk_cases a b c op st) as [(st1 & R & E) | (st1 & F & E)];
      rewrite E; clear E;
      [ let Hm := fresh "Hm" in
        let Hn := fresh "Hn" in
        let Ht := fresh "Ht" in
        let Hc := fresh "Hc" in
        let Hf := fresh "Hf" in
        let Hd := fresh "Hd" in
        let Hl := fresh "Hl" in
        pose proof (callbacks_ran_mlog _ _ R) as Hm;
        pose proof (callbacks_ran_now _ _ R) as Hn;
        pose proof (cr_thread _ _ R) as Ht;
        pose proof (cr_count _ _ R) as Hc;
        pose proof (cr_flight_mode _ _ R) as Hf;
        pose proof (cr_on_discover _ _ R) as Hd;
        pose proof (cr_location _ _ R) as Hl;
        let Hs := fresh "Hs" in
        pose proof (cr_discovered _ _ R) as Hs;
        autorewrite with clock in Hn;
        simpl in Ht, Hc, Hf, Hd, Hl, Hs
      | let Hm := fresh "Hm" in
        pose proof (watchdog_fired_mlog _ _ F) as Hm ]
  end.

Ltac no_watchdog :=
  exfalso;
  match goal with
  | F : watchdog_fired _ _ |- _ =>
      refine (not_subscribed_no_watchdog _ _ _ F); flag
  end.

(** The watchdog ended the process: it was subscribed, the status is 0. *)
Ltac by_watchdog :=
  match goal with
  | F : watchdog_fired _ _ |- _ =>
      let S := fresh "S" in
      destruct F as [S _]; split; [reflexivity | flag]
  end.

(** Rewrite the main-thread log of the current state into the log of the
    state the proof started from. *)
Ltac mlog_norm :=
  repeat first
    [ progress autorewrite with trace
    | match goal with
      | H : mlog ?b = mlog ?a |- context [mlog ?b] => rewrite H
      end ].

(** Close an equation between two traces. *)
Ltac trace_done :=
  mlog_norm;
  repeat (progress (rewrite <- ?app_assoc; simpl));
  reflexivity.

(** *** Running a computation on a state, one equation per operation *)

Section Run.

Variable w : World.

Lemma bind_run {A B} (m : M A) (k : A -> M B) st :
  bind m k st =
  match m st with
  | Val a st' => k a st'
  | Exit c st' => Exit c st'
  | Undefined st' => Undefined st'
  | OutOfFuel st' => OutOfFuel st'
  end.
Proof. reflexivity. Qed.

Lemma ret_run {A} (a : A) st : ret a st = Val a st.
Proof. reflexivity. Qed.

Lemma exit_run {A} c st : @exit A c st = Exit c st.
Proof. reflexivity. Qed.

Lemma undefined_run {A} st : @undefined A st = Undefined st.
Proof. reflexivity. Qed.

Lemma out_of_fuel_run {A} st : @out_of_fuel A st = OutOfFuel st.
Proof. reflexivity. Qed.

Lemma cout_run text st : cout text st = Val tt (emit (Cout text) st).
Proof. reflexivity. Qed.

Lemma cerr_run text st : cerr text st = Val tt (emit (Cerr text) st).
Proof. reflexivity. Qed.

Lemma sleep_for_run s st : sleep_for s st = Val tt (emit (SleepFor s) st).
Proof. reflexivity. Qed.

Lemma dc_add_any_connection_run url st :
  dc_add_any_connection w url st =
  Val (add_any_connection_at w (now st) url)
      (emit (AddAnyConnection url (add_any_connection_at w (now st) url)) st).
Proof. reflexivity. Qed.

Lemma dc_register_on_discover_run st :
  dc_register_on_discover st =
  Val tt (with_on_discover true (emit RegisterOnDiscover st)).
Proof. reflexivity. Qed.

Lemma dc_system_uuids_run st :
  dc_system_uuids w st =
  Val (system_uuids_at w (now st))
      (emit (SystemUuids (system_uuids_at w (now st))) st).
Proof. reflexivity. Qed.

Lemma dc_system_run uuid st :
  dc_system uuid st = Val tt (emit (GetSystem uuid) st).
Proof. reflexivity. Qed.

Lemma telemetry_health_all_ok_run st :
  telemetry_health_all_ok w st =
  Val (health_all_ok_at w (now st))
      (emit (HealthAllOk (health_all_ok_at w (now st))) st).
Proof. reflexivity. Qed.

Lemma telemetry_armed_run st :
  telemetry_armed w st =
  Val (armed_at w (now st)) (emit (Armed (armed_at w (now st))) st).
Proof. reflexivity. Qed.

Lemma telemetry_in_air_run st :
  telemetry_in_air w st =
  Val (in_air_at w (now st)) (emit (InAir (in_air_at w (now st))) st).
Proof. reflexivity. Qed.

Lemma telemetry_position_run st :
  telemetry_position w st =
  Val (position_at w (now st)) (emit (GetPosition (position_at w (now st))) st).
Proof. reflexivity. Qed.

Lemma telemetry_subscribe_flight_mode_run on st :
  telemetry_subscribe_flight_mode on st =
  Val tt (with_flight_mode_subscribed on (emit (SubscribeFlightMode on) st)).
Proof. reflexivity. Qed.

Lemma action_arm_run st :
  action_arm w st = Val (arm_at w (now st)) (emit (Arm (arm_at w (now st))) st).
Proof. reflexivity. Qed.

Lemma action_takeoff_run st :
  action_takeoff w st =
  Val (takeoff_at w (now st)) (emit (Takeoff (takeoff_at w (now st))) st).
Proof. reflexivity. Qed.

Lemma action_land_run st :
  action_land w st =
  Val (land_at w (now st)) (emit (Land (land_at w (now st))) st).
Proof. reflexivity. Qed.

Lemma follow_me_set_config_run c st :
  follow_me_set_config w c st =
  Val (set_config_at w (now st))
      (emit (SetConfig c (set_config_at w (now st))) st).
Proof. reflexivity. Qed.

Lemma follow_me_start_run st :
  follow_me_start w st =
  Val (start_at w (now st)) (emit (Start (start_at w (now st))) st).
Proof. reflexivity. Qed.

Lemma follow_me_stop_run st :
  follow_me_stop w st =
  Val (stop_at w (now st)) (emit (Stop (stop_at w (now st))) st).
Proof. reflexivity. Qed.

Lemma location_provider_request_location_updates_run host port id st :
  location_provider_request_location_updates host port id st =
  Val tt (with_location_updates true
            (emit (RequestLocationUpdates host port id) st)).
Proof. reflexivity. Qed.

Lemma location_provider_is_running_run st :
  location_provider_is_running w st =
  Val (is_running_at w (now st))
      (emit (IsRunning (is_running_at w (now st))) st).
Proof. reflexivity. Qed.

Lemma get_discovered_system_run st :
  get_discovered_system st = Val (discovered_system st) st.
Proof. reflexivity. Qed.

Lemma action_error_exit_run r message st :
  action_error_exit r message st =
  if Action.eqb r Action.Success then Val tt st
  else Exit EXIT_FAILURE (emit (Cerr (action_error_text message r)) st).
Proof.
  unfold action_error_exit. destruct (Action.eqb r Action.Success); reflexivity.
Qed.

Lemma follow_me_error_exit_run r message st :
  follow_me_error_exit r message st =
  if FollowMe.eqb r FollowMe.Success then Val tt st
  else Exit EXIT_FAILURE (emit (Cerr (follow_me_error_text message r)) st).
Proof.
  unfold follow_me_error_exit.
  destruct (FollowMe.eqb r FollowMe.Success); reflexivity.
Qed.

End Run.

Create Rewrite HintDb run.

#[global] Hint Rewrite @bind_run @ret_run @exit_run @undefined_run
  @out_of_fuel_run cout_run cerr_run sleep_for_run dc_add_any_connection_run
  dc_register_on_discover_run dc_system_uuids_run dc_system_run
  telemetry_health_all_ok_run telemetry_armed_run telemetry_in_air_run
  telemetry_position_run telemetry_subscribe_flight_mode_run action_arm_run
  action_takeoff_run action_land_run follow_me_set_config_run
  follow_me_start_run follow_me_stop_run
  location_provider_request_location_updates_run
  location_provider_is_running_run get_discovered_system_run
  action_error_exit_run follow_me_error_exit_run : run.

(** Run the main thread up to its next SDK call, loop or branch. *)
Ltac run :=
  repeat (progress (autorewrite with run; cbv beta iota zeta; cbn [negb])).

(** ** Properties of the log that every step keeps *)

Section Keeps.

Variables LAT LON : float.
Variable w : World.
Variable J : list (Thread * Event) -> Prop.

Lemma keeps_ret {A} (a : A) : keeps J (ret a).
Proof. intros st H. exact H. Qed.

Lemma keeps_bind {A B} (m : M A) (k : A -> M B) :
  keeps J m -> (forall a, keeps J (k a)) -> keeps J (bind m k).
Proof.
  intros Hm Hk st H. unfold bind. specialize (Hm st H).
  destruct (m st) as [a st'|c st'|st'|st']; auto.
  apply Hk. exact Hm.
Qed.

Lemma keeps_while fuel cond body :
  keeps J cond -> keeps J body -> keeps J (while fuel cond body).
Proof.
  intros Hc Hb. induction fuel as [|fuel IH].
  - intros st H. exact H.
  - rewrite while_step. apply keeps_bind; auto. intros [|].
    + apply keeps_bind; auto. intros [|]; auto using keeps_ret.
    + apply keeps_ret.
Qed.

(** An operation that leaves the log alone. *)
Lemma keeps_silent {A} (m : M A) :
  (forall st, log (final_state (m st)) = log st) -> keeps J m.
Proof. intros Hm st H. now rewrite Hm. Qed.

(** [fits t ev]: logging the event [ev] at time [t] keeps [J]. *)
Variable fits : nat -> Event -> Prop.

Hypothesis J_emit :
  forall st ev, fits (now st) ev -> J (log st) -> J (log (emit ev st)).

(** An operation that adds one such event to the log. *)
Lemma keeps_event {A} (m : M A) :
  (forall st, exists ev,
     log (final_state (m st)) = log st ++ [(thread st, ev)] /\
     fits (now st) ev) ->
  keeps J m.
Proof.
  intros Hm st H. destruct (Hm st) as (ev & E & B). rewrite E.
  exact (J_emit st ev B H).
Qed.

Hypothesis J_deliver : forall d, keeps J (deliver LAT LON w d).

Lemma keeps_deliver_all ds : keeps J (deliver_all LAT LON w ds).
Proof.
  induction ds as [|d ds IH]; simpl.
  - apply keeps_ret.
  - apply keeps_bind; auto.
Qed.

Lemma keeps_sdk {A} (op : M A) : keeps J op -> keeps J (sdk LAT LON w op).
Proof.
  intro H. unfold sdk. apply keeps_bind; auto.
  intros st. unfold yield. apply keeps_deliver_all.
Qed.

End Keeps.

(** A step that logs one event ([E] is [keeps_event] for the property at
    hand) or none. *)
Ltac keeps_leaf E :=
  first
    [ apply keeps_ret
    | apply keeps_silent; intro; reflexivity
    | apply E; intro; eexists; split;
      [reflexivity | simpl; first [reflexivity | exact I]]
    | apply keeps_silent; intro; unfold pre_increment_count, argv_at;
      match goal with
      | |- context [match ?x with _ => _ end] => destruct x; reflexivity
      | |- context [if ?x then _ else _] => destruct x; reflexivity
      end ].

(** Decompose a block of [main] along its structure; [D] is [keeps_sdk]
    for the property at hand. *)
Ltac keeps_auto E D :=
  lazymatch goal with
  | |- keeps _ (bind _ _) =>
      apply keeps_bind; [keeps_auto E D | intro; keeps_auto E D]
  | |- keeps _ (sdk _ _ _ _) => apply D; keeps_auto E D
  | |- keeps _ (while _ _ _) => apply keeps_while; keeps_auto E D
  | |- keeps _ (if ?b then _ else _) => destruct b; keeps_auto E D
  | |- keeps _ (match ?l with [] => _ | _ :: _ => _ end) =>
      destruct l; keeps_auto E D
  | |- _ => keeps_leaf E
  end.

(** ** The answers in the log are the world's *)

Section Answers.

Variables LAT LON : float.
Variable w : World.
Variable k : nat.

Lemma answers_since_emit st ev :
  answered_by w (now st) ev ->
  answers_since w k (log st) -> answers_since w k (log (emit ev st)).
Proof.
  intros B H t th ev' K E. simpl in E.
  destruct (Nat.lt_ge_cases t (List.length (log st))) as [Lt | Ge].
  - rewrite nth_error_app1 in E by exact Lt. exact (H t th ev' K E).
  - rewrite nth_error_app2 in E by exact Ge.
    destruct (t - List.length (log st))%nat as [|d] eqn:D.
    + injection E as _ <-.
      replace t with (now st) by (unfold now; lia). exact B.
    + destruct d; discriminate.
Qed.

Lemma answers_since_callback d :
  keeps (answers_since w k) (invoke d ;; callback LAT LON w d).
Proof.
  pose proof (@keeps_event (answers_since w k) (answered_by w)
                answers_since_emit) as E.
  destruct d as [uuid | m | lat lon];
    unfold callback, on_discover, on_flight_mode, on_location; cbv zeta;
    repeat first
      [ apply keeps_bind; [|intro]
      | match goal with
        | |- keeps _ (if ?b then _ else _) => destruct b
        end
      | keeps_leaf E ].
Qed.

Lemma answers_since_deliver d :
  keeps (answers_since w k) (deliver LAT LON w d).
Proof.
  intros st H. unfold deliver.
  destruct (callback_enabled d st); [|exact H].
  pose proof (answers_since_callback d (with_thread CallbackThread st) H)
    as K.
  destruct ((invoke d ;; callback LAT LON w d) (with_thread CallbackThread st));
    exact K.
Qed.

(** Every block of [main] asks the world and logs what it answers. *)
Lemma answers_since_main fuel argv :
  keeps (answers_since w k) (main LAT LON w fuel argv).
Proof.
  unfold main, fly, approach, discover, preflight, start_follow_me,
    follow_loop, shutdown, usage, action_error_exit, follow_me_error_exit.
  cbv zeta.
  keeps_auto
    (@keeps_event (answers_since w k) (answered_by w) answers_since_emit)
    (@keeps_sdk LAT LON w (answers_since w k) answers_since_deliver).
Qed.

Lemma answers_since_discover fuel :
  keeps (answers_since w k) (discover LAT LON w fuel).
Proof.
  unfold discover.
  keeps_auto
    (@keeps_event (answers_since w k) (answered_by w) answers_since_emit)
    (@keeps_sdk LAT LON w (answers_since w k) answers_since_deliver).
Qed.



End Answers.

(** Nothing was logged yet from the present moment on. *)
Lemma answers_since_now w st : answers_since w (now st) (log st).
Proof.
  intros t th ev K E. exfalso.
  assert (nth_error (log st) t <> None) as N by congruence.
  apply nth_error_Some in N. unfold now in K. lia.
Qed.

(** ** The shutdown sequence *)

Section Shutdown.

Variables LAT LON : float.
Variable w : World.

#[local] Abbreviation landing_loop fuel :=
  (while fuel (sdk LAT LON w (telemetry_in_air w))
     (cout [Str "waiting until landed"; Endl] ;;
      sdk LAT LON w (sleep_for 1) ;; ret Continue)%prog).

Lemma landing_loop_outcomes fuel : forall st,
  thread st = MainThread -> flight_mode_subscribed st = false ->
  match landing_loop fuel st with
  | Val _ st' =>
      thread st' = MainThread /\
      exists n, (n < fuel)%nat /\
        mlog st' = mlog st ++ rounds waiting_to_land n ++ [InAir false]
  | Exit _ _ | Undefined _ => False
  | OutOfFuel st' => mlog st' = mlog st ++ rounds waiting_to_land fuel
  end.
Proof.
  induction fuel as [|fuel IH]; intros st T S; simpl.
  - unfold out_of_fuel. simpl. now rewrite app_nil_r.
  - unfold bind at 1. sdk_step R; [|no_watchdog].
    unfold telemetry_in_air, call. simpl.
    destruct (in_air_at w (now st0)) eqn:A.
    + unfold bind. simpl. sdk_step R'; [|no_watchdog].
      simpl.
      match goal with
      | |- match while _ _ _ ?s with _ => _ end =>
          specialize (IH s ltac:(flag) ltac:(flag));
          destruct (while _ _ _ s)
      end; auto.
      * destruct IH as [T' (n & Lt & E)]. split; auto.
        exists (Datatypes.S n). split; [lia|].
        rewrite E. mlog_norm. rewrite rounds_S. unfold waiting_to_land.
        simpl. rewrite <- !app_assoc. reflexivity.
      * rewrite IH. mlog_norm. rewrite rounds_S. unfold waiting_to_land.
        simpl. rewrite <- !app_assoc. reflexivity.
    + unfold ret. split; [flag|]. exists 0%nat. split; [lia|].
      mlog_norm. reflexivity.
Qed.

(** Once the vehicle is reported landed for good, the loop ends. *)
Lemma landing_loop_terminates n fuel : forall st,
  (forall t, (n <= t)%nat -> in_air_at w t = false) ->
  (0 < fuel)%nat -> (n < now st + fuel)%nat ->
  forall st', landing_loop fuel st <> OutOfFuel st'.
Proof.
  induction fuel as [|fuel IH]; intros st L F N st'; [lia|]. simpl.
  unfold bind at 1. sdk_step R; [|discriminate].
  unfold telemetry_in_air, call. simpl.
  destruct (in_air_at w (now st0)) eqn:A; [|discriminate].
  assert (now st0 < n)%nat.
  { destruct (Nat.lt_ge_cases (now st0) n) as [|G]; auto.
    rewrite (L _ G) in A. discriminate. }
  unfold bind. simpl. sdk_step R'; [|discriminate]. simpl.
  apply IH; auto; autorewrite with clock; lia.
Qed.

(** Every way the shutdown block can end. *)
Lemma shutdown_outcomes fuel st :
  thread st = MainThread ->
  match shutdown LAT LON w fuel st with
  | Val r st' =>
      r = 0 /\
      exists n, (n < fuel)%nat /\
        mlog st' = mlog st ++
          [Stop FollowMe.Success; SubscribeFlightMode false;
           Land Action.Success] ++
          rounds waiting_to_land n ++
          [InAir false; Cout [Str "Landed..."; Endl]]
  | Exit c st' =>
      (c = 0 /\ flight_mode_subscribed st = true /\
       (mlog st' = mlog st \/ mlog st' = mlog st ++ [Stop FollowMe.Success]))
      \/
      (c = EXIT_FAILURE /\ exists r, r <> FollowMe.Success /\
         mlog st' = mlog st ++
           [Stop r;
            Cerr (follow_me_error_text "Failed to stop FollowMe mode" r)])
      \/
      (c = EXIT_FAILURE /\ exists r, r <> Action.Success /\
         mlog st' = mlog st ++
           [Stop FollowMe.Success; SubscribeFlightMode false; Land r;
            Cerr (action_error_text "Landing failed" r)])
  | Undefined _ => False
  | OutOfFuel st' =>
      mlog st' = mlog st ++
        [Stop FollowMe.Success; SubscribeFlightMode false;
         Land Action.Success] ++
        rounds waiting_to_land fuel
  end.
Proof.
  intro T. unfold shutdown.
  unfold bind at 1. sdk_step R1.
  2:{ left. destruct F as [S _]. auto. }
  unfold follow_me_stop, call. simpl.
  set (r := stop_at w (now st0)).
  unfold bind at 1, follow_me_error_exit.
  destruct (FollowMe.eqb r FollowMe.Success) eqn:ER; simpl.
  2:{ right. left. split; auto. exists r. split.
      - intro E. apply FollowMe_eqb_eq in E. congruence.
      - unfold bind, cerr, exit. simpl. mlog_norm.
        now rewrite <- app_assoc. }
  apply FollowMe_eqb_eq in ER. rewrite ER. clear ER r.
  unfold bind at 1. sdk_step R2.
  2:{ left. destruct F as [S _]. simpl in S. split; auto. split.
      - congruence.
      - right. rewrite Hm0. mlog_norm. reflexivity. }
  simpl.
  unfold bind at 1. sdk_step R3; [|no_watchdog].
  unfold action_land, call. simpl.
  match goal with |- context [Land ?x] => set (r := x) end.
  unfold bind at 1, action_error_exit.
  destruct (Action.eqb r Action.Success) eqn:ER; simpl.
  2:{ right. right. split; auto. exists r. split.
      - intro E. apply Action_eqb_eq in E. congruence.
      - unfold bind, cerr, exit. simpl. mlog_norm.
        now rewrite <- !app_assoc. }
  apply Action_eqb_eq in ER. rewrite ER. clear ER r.
  unfold bind at 1.
  match goal with
  | |- match match while _ _ _ ?s with _ => _ end with _ => _ end =>
      pose proof (landing_loop_outcomes fuel s ltac:(flag) ltac:(flag)) as L;
      destruct (while _ _ _ s) as [[] st'| | |st']
  end; try contradiction.
  - destruct L as [T' (n & Lt & E)].
    unfold bind, cout, ret. simpl. split; auto. exists n. split; auto.
    mlog_norm. rewrite E. mlog_norm. now rewrite <- !app_assoc.
  - rewrite L. mlog_norm. now rewrite <- !app_assoc.
Qed.

(** The shutdown block ends once the vehicle is reported landed for
    good, however the callbacks interleave. *)
Lemma shutdown_terminates n fuel st :
  (forall t, (n <= t)%nat -> in_air_at w t = false) ->
  (n < fuel)%nat ->
  forall st', shutdown LAT LON w fuel st <> OutOfFuel st'.
Proof.
  intros L N st'. unfold shutdown.
  unfold bind at 1. sdk_step R1; [|discriminate].
  unfold follow_me_stop, call. simpl.
  unfold bind at 1, follow_me_error_exit.
  destruct (FollowMe.eqb _ _); simpl; [|discriminate].
  unfold bind at 1. sdk_step R2; [|discriminate]. simpl.
  unfold bind at 1. sdk_step R3; [|discriminate].
  unfold action_land, call. simpl.
  unfold bind at 1, action_error_exit.
  destruct (Action.eqb _ _); simpl; [|discriminate].
  unfold bind at 1.
  match goal with
  | |- context [while ?f ?c ?b ?s] =>
      assert (n < now s + fuel)%nat as N' by lia;
      pose proof (landing_loop_terminates n fuel s L ltac:(lia) N') as D;
      destruct (while f c b s) as [[] sa|c1 sb|sc|sd]
  end; try discriminate.
  exfalso. eapply D. reflexivity.
Qed.


End Shutdown.


(** ** The follow loop *)

Section FollowLoop.

Variables LAT LON : float.
Variable w : World.

(** Every way the follow loop can end, started with [count] below the
    bound: [n] counts the completed rounds. *)
Lemma follow_loop_outcomes fuel : forall st,
  thread st = MainThread ->
  0 <= count st < MAX_SECONDS_TO_FOLLOW ->
  match follow_loop LAT LON w fuel st with
  | Val _ st' =>
      thread st' = MainThread /\
      exists n, count st' = count st + Z.of_nat n /\
        count st' <= MAX_SECONDS_TO_FOLLOW /\
        mlog st' = mlog st ++ rounds following_round n ++
          (if count st' =? MAX_SECONDS_TO_FOLLOW then []
           else [IsRunning false])
  | Exit c st' =>
      c = 0 /\ flight_mode_subscribed st = true /\
      exists n, count st + Z.of_nat n < MAX_SECONDS_TO_FOLLOW /\
        (mlog st' = mlog st ++ rounds following_round n \/
         mlog st' = mlog st ++ rounds following_round n ++ [IsRunning true])
  | Undefined _ => False
  | OutOfFuel st' =>
      count st + Z.of_nat fuel < MAX_SECONDS_TO_FOLLOW /\
      mlog st' = mlog st ++ rounds following_round fuel
  end.
Proof.
  unfold MAX_SECONDS_TO_FOLLOW, follow_loop.
  induction fuel as [|fuel IH]; intros st T C.
  - simpl. unfold out_of_fuel. split; [lia|]. now rewrite app_nil_r.
  - rewrite while_step. unfold bind at 1. sdk_step R1.
    2:{ destruct F as [S _]. repeat split; auto. exists 0%nat.
        split; [lia|]. left. rewrite Hm. simpl. now rewrite app_nil_r. }
    unfold location_provider_is_running at 1, call. cbv beta iota zeta.
    destruct (is_running_at w (now st0)) eqn:A.
    2:{ unfold ret. split; [flag|]. exists 0%nat. simpl count.
        rewrite Z.add_0_r. repeat split; try lia.
        replace (count st0 =? 60) with false
          by (symmetry; apply Z.eqb_neq; lia).
        mlog_norm. reflexivity. }
    unfold bind at 1. unfold bind at 1. sdk_step R2.
    2:{ destruct F as [S _]. simpl in S. repeat split; try congruence.
        exists 0%nat. split; [lia|]. right. rewrite Hm0. mlog_norm.
        reflexivity. }
    unfold sleep_for at 1. cbv beta iota.
    unfold bind at 1, pre_increment_count at 1. simpl count.
    replace (count st1 =? INT_MAX) with false
      by (symmetry; apply Z.eqb_neq; unfold INT_MAX; lia).
    unfold MAX_SECONDS_TO_FOLLOW at 1.
    destruct (60 <=? count st1 + 1) eqn:B.
    + unfold ret. apply Z.leb_le in B. split; [flag|].
      exists 1%nat. simpl count. repeat split; try lia.
      replace (count st1 + 1 =? 60) with true
        by (symmetry; apply Z.eqb_eq; lia).
      mlog_norm. rewrite app_nil_r, <- app_assoc. reflexivity.
    + apply Z.leb_gt in B. unfold ret at 1.
      match goal with
      | |- match while _ _ _ ?s with _ => _ end =>
          specialize (IH s ltac:(flag) ltac:(simpl count; lia));
          destruct (while _ _ _ s) as [[] sa|c1 sb|sc|sd]
      end; auto.
      * destruct IH as [T' (n & Cn & Cm & E)]. split; auto.
        exists (S n). simpl count in *. repeat split; try lia.
        rewrite E. mlog_norm. rewrite rounds_S. unfold following_round.
        simpl. rewrite <- !app_assoc. reflexivity.
      * destruct IH as [-> [S (n & Cn & E)]]. simpl in S.
        repeat split; try congruence.
        exists (Datatypes.S n). simpl count in *. split; [lia|].
        rewrite rounds_S. unfold following_round at 1 3.
        destruct E as [E|E]; [left|right]; rewrite E; mlog_norm;
          simpl; rewrite <- !app_assoc; reflexivity.
      * destruct IH as [Cn E]. simpl count in *. split; [lia|].
        rewrite E. mlog_norm. rewrite rounds_S. unfold following_round.
        simpl. rewrite <- !app_assoc. reflexivity.
Qed.



End FollowLoop.


(** ** The preflight block *)

Section Preflight.

Variables LAT LON : float.
Variable w : World.

#[local] Abbreviation health_loop fuel :=
  (while fuel
     (ok <- sdk LAT LON w (telemetry_health_all_ok w) ;; ret (negb ok))
     (cout [Str "Waiting for system to be ready"; Endl] ;;
      sdk LAT LON w (sleep_for 1) ;; ret Continue)%prog).

#[local] Abbreviation altitude_loop fuel :=
  (while fuel
     (p <- sdk LAT LON w (telemetry_position w) ;;
      ret (Telemetry.relative_altitude_m p <? 2.4)%float)
     (sdk LAT LON w (sleep_for 1) ;; ret Continue)%prog).

Lemma health_loop_outcomes fuel : forall st,
  thread st = MainThread ->
  match health_loop fuel st with
  | Val _ st' =>
      thread st' = MainThread /\
      flight_mode_subscribed st' = flight_mode_subscribed st /\
      count st' = count st /\
      exists n, (n < fuel)%nat /\
        mlog st' = mlog st ++ rounds waiting_for_health n ++ [HealthAllOk true]
  | Exit c st' => c = 0 /\ flight_mode_subscribed st = true
  | Undefined _ => False
  | OutOfFuel st' => mlog st' = mlog st ++ rounds waiting_for_health fuel
  end.
Proof.
  induction fuel as [|fuel IH]; intros st T.
  - simpl. unfold out_of_fuel. now rewrite app_nil_r.
  - rewrite while_step. run. sdk_step R1.
    2:{ destruct F as [S _]. auto. }
    run. destruct (health_all_ok_at w (now st0)) eqn:A; run.
    + repeat split; try flag. exists 0%nat. split; [lia|].
      mlog_norm. reflexivity.
    + sdk_step R2.
      2:{ destruct F as [S _]. simpl in S. split; congruence. }
      run.
      match goal with
      | |- match while _ _ _ ?s with _ => _ end =>
          specialize (IH s ltac:(flag));
          destruct (while _ _ _ s) as [[] sa|c1 sb|sc|sd]
      end; auto.
      * destruct IH as [T' [S [C (n & Lt & E)]]]. repeat split; try flag.
        exists (Datatypes.S n). split; [lia|].
        rewrite E. mlog_norm. rewrite rounds_S. unfold waiting_for_health.
        simpl. rewrite <- !app_assoc. reflexivity.
      * destruct IH as [-> S]. simpl in S. split; congruence.
      * rewrite IH. mlog_norm. rewrite rounds_S. unfold waiting_for_health.
        simpl. rewrite <- !app_assoc. reflexivity.
Qed.

Lemma altitude_loop_outcomes fuel : forall st,
  thread st = MainThread ->
  match altitude_loop fuel st with
  | Val _ st' =>
      thread st' = MainThread /\
      flight_mode_subscribed st' = flight_mode_subscribed st /\
      count st' = count st /\
      exists ps p,
        (List.length ps < fuel)%nat /\
        forallb below_takeoff_altitude ps = true /\
        below_takeoff_altitude p = false /\
        mlog st' = mlog st ++ climbing ps ++ [GetPosition p]
  | Exit c st' => c = 0 /\ flight_mode_subscribed st = true
  | Undefined _ => False
  | OutOfFuel st' =>
      exists ps,
        List.length ps = fuel /\
        forallb below_takeoff_altitude ps = true /\
        mlog st' = mlog st ++ climbing ps
  end.
Proof.
  induction fuel as [|fuel IH]; intros st T.
  - simpl. unfold out_of_fuel. exists []. simpl. now rewrite app_nil_r.
  - rewrite while_step. run. sdk_step R1.
    2:{ destruct F as [S _]. auto. }
    run. set (p := position_at w (now st0)).
    fold (below_takeoff_altitude p).
    destruct (below_takeoff_altitude p) eqn:A; run.
    + sdk_step R2.
      2:{ destruct F as [S _]. simpl in S. split; congruence. }
      run.
      match goal with
      | |- match while _ _ _ ?s with _ => _ end =>
          specialize (IH s ltac:(flag));
          destruct (while _ _ _ s) as [[] sa|c1 sb|sc|sd]
      end; auto.
      * destruct IH as [T' [S [C (ps & q & Lt & B & Bq & E)]]].
        repeat split; try flag.
        exists (p :: ps), q. simpl. rewrite A, B. repeat split; auto; try lia.
        rewrite E. mlog_norm. rewrite <- !app_assoc. reflexivity.
      * destruct IH as [-> S]. simpl in S. split; congruence.
      * destruct IH as (ps & Lt & B & E). exists (p :: ps). simpl.
        rewrite A, B. repeat split; auto.
        rewrite E. mlog_norm. rewrite <- !app_assoc. reflexivity.
    + repeat split; try flag. exists [], p. simpl.
      repeat split; auto; try lia. mlog_norm. reflexivity.
Qed.

(** Comparison of binary64 numbers: what is not below is at least,
    unless one of the two is not a number. *)
Lemma SFcompare_antisym x y :
  SFcompare y x = option_map CompOpp (SFcompare x y).
Proof.
  destruct x as [sx|sx| |sx mx ex], y as [sy|sy| |sy my ey]; simpl; auto;
    try (destruct sx; reflexivity); try (destruct sy; reflexivity);
    try (destruct sx, sy; reflexivity).
  destruct sx, sy; simpl; auto;
    rewrite (Z.compare_antisym ey ex); destruct (ey ?= ex)%Z; simpl; auto;
    rewrite (Pos.compare_cont_antisym mx my Eq); simpl;
    destruct (Pos.compare_cont Eq mx my); reflexivity.
Qed.

Lemma is_nan_spec x : is_nan x = true <-> Prim2SF x = S754_nan.
Proof.
  unfold is_nan. rewrite eqb_spec.
  destruct (Prim2SF x) as [s|s| |s m e] eqn:E; simpl; split; intro H;
    try discriminate; auto.
  - destruct s; discriminate.
  - unfold SFeqb in H. simpl in H.
    destruct s; rewrite Z.compare_refl, Pos.compare_cont_refl in H;
      discriminate.
Qed.

Lemma not_ltb_leb x y :
  is_nan x = false -> is_nan y = false ->
  (x <? y)%float = false -> (y <=? x)%float = true.
Proof.
  intros Hx Hy. rewrite ltb_spec, leb_spec.
  unfold SFltb, SFleb. rewrite (SFcompare_antisym (Prim2SF x)).
  assert (Prim2SF x <> S754_nan)
    by (intro E; apply is_nan_spec in E; congruence).
  assert (Prim2SF y <> S754_nan)
    by (intro E; apply is_nan_spec in E; congruence).
  destruct (SFcompare (Prim2SF x) (Prim2SF y)) as [[| |]|] eqn:E; simpl;
    try congruence.
  destruct (Prim2SF x), (Prim2SF y); simpl in E; congruence.
Qed.

Lemma reached_takeoff_altitude p :
  below_takeoff_altitude p = false ->
  is_nan (Telemetry.relative_altitude_m p) = false ->
  (2.4 <=? Telemetry.relative_altitude_m p)%float = true.
Proof.
  intros B N. apply not_ltb_leb; auto.
Qed.

(** Once the health checks pass for good, the first loop ends; once the
    reported altitude stays at or above the takeoff altitude, the second
    one does. *)
Lemma health_loop_terminates n fuel : forall st,
  (forall t, (n <= t)%nat -> health_all_ok_at w t = true) ->
  (0 < fuel)%nat -> (n < now st + fuel)%nat ->
  forall st', health_loop fuel st <> OutOfFuel st'.
Proof.
  induction fuel as [|fuel IH]; intros st L F N st'; [lia|].
  rewrite while_step. run. sdk_step R; [|discriminate].
  run. destruct (health_all_ok_at w (now st0)) eqn:A; run; [discriminate|].
  assert (now st0 < n)%nat.
  { destruct (Nat.lt_ge_cases (now st0) n) as [|G]; auto.
    rewrite (L _ G) in A. discriminate. }
  sdk_step R'; [|discriminate]. run.
  apply IH; auto; autorewrite with clock; lia.
Qed.

Lemma altitude_loop_terminates n fuel : forall st,
  (forall t, (n <= t)%nat -> below_takeoff_altitude (position_at w t) = false) ->
  (0 < fuel)%nat -> (n < now st + fuel)%nat ->
  forall st', altitude_loop fuel st <> OutOfFuel st'.
Proof.
  induction fuel as [|fuel IH]; intros st L F N st'; [lia|].
  rewrite while_step. run. sdk_step R; [|discriminate].
  run. fold (below_takeoff_altitude (position_at w (now st0))).
  destruct (below_takeoff_altitude (position_at w (now st0))) eqn:A; run;
    [|discriminate].
  assert (now st0 < n)%nat.
  { destruct (Nat.lt_ge_cases (now st0) n) as [|G]; auto.
    rewrite (L _ G) in A. discriminate. }
  sdk_step R'; [|discriminate]. run.
  apply IH; auto; autorewrite with clock; lia.
Qed.

Lemma preflight_terminates n fuel st :
  (forall t, (n <= t)%nat -> health_all_ok_at w t = true) ->
  (forall t, (n <= t)%nat -> below_takeoff_altitude (position_at w t) = false) ->
  (n < fuel)%nat ->
  forall st', preflight LAT LON w fuel st <> OutOfFuel st'.
Proof.
  intros H A N st'. unfold preflight. run.
  pose proof (health_loop_terminates n fuel st H ltac:(lia) ltac:(lia)) as T1.
  destruct (while _ _ _ st) as [[] sa|c1 sb|sc|sd]; try discriminate.
  2:{ exfalso. eapply T1. reflexivity. }
  clear T1. run. sdk_step R1; [|discriminate]. run.
  destruct (armed_at w (now st0)); run.
  - sdk_step R2; [|discriminate]. run.
    destruct (in_air_at w (now st1)); run; [discriminate|].
    sdk_step R3; [|discriminate]. run.
    destruct (Action.eqb _ _); run; [|discriminate].
    match goal with
    | |- context [while ?f ?c ?b ?s'] =>
        pose proof (altitude_loop_terminates n f s' A ltac:(lia) ltac:(lia))
          as T2;
        destruct (while f c b s') as [[] sa'|c1' sb'|sc'|sd']
    end; run; try discriminate.
    exfalso. eapply T2. reflexivity.
  - sdk_step R2; [|discriminate]. run.
    destruct (Action.eqb _ _); run; [|discriminate].
    sdk_step R3; [|discriminate]. run.
    destruct (in_air_at w (now st2)); run; [discriminate|].
    sdk_step R4; [|discriminate]. run.
    destruct (Action.eqb _ _); run; [|discriminate].
    match goal with
    | |- context [while ?f ?c ?b ?s'] =>
        pose proof (altitude_loop_terminates n f s' A ltac:(lia) ltac:(lia))
          as T2;
        destruct (while f c b s') as [[] sa'|c1' sb'|sc'|sd']
    end; run; try discriminate.
    exfalso. eapply T2. reflexivity.
Qed.

(** Every way the preflight block can end. *)
Lemma preflight_outcomes fuel st :
  thread st = MainThread ->
  match preflight LAT LON w fuel st with
  | Val _ st' =>
      thread st' = MainThread /\
      flight_mode_subscribed st' = flight_mode_subscribed st /\
      count st' = count st /\
      exists n armed in_air climb,
        takeoff_and_climb in_air climb /\
        mlog st' = mlog st ++ preflight_head n armed ++
          [InAir in_air] ++ climb ++ [Cout [Str "In Air..."; Endl]]
  | Exit c st' =>
      (c = 0 /\ flight_mode_subscribed st = true)
      \/
      (c = EXIT_FAILURE /\ exists n r, r <> Action.Success /\
         mlog st' = mlog st ++ rounds waiting_for_health n ++
           [HealthAllOk true; Cout [Str "System is ready"; Endl];
            Armed false; Arm r;
            Cerr (action_error_text "Arming failed" r)])
      \/
      (c = EXIT_FAILURE /\ exists n armed r, r <> Action.Success /\
         mlog st' = mlog st ++ preflight_head n armed ++
           [InAir false; Takeoff r;
            Cerr (action_error_text "Takeoff failed" r)])
  | Undefined _ => False
  | OutOfFuel st' =>
      mlog st' = mlog st ++ rounds waiting_for_health fuel
      \/
      exists n armed ps,
        List.length ps = fuel /\
        forallb below_takeoff_altitude ps = true /\
        mlog st' = mlog st ++ preflight_head n armed ++
          [InAir false; Takeoff Action.Success] ++ climbing ps
  end.
Proof.
  intro T. unfold preflight. run.
  pose proof (health_loop_outcomes fuel st T) as L.
  destruct (while _ _ _ st) as [[] sa|c1 sb|sc|sd]; auto.
  destruct L as [Ta [Sa [Ca (n & _ & Ea)]]]. run.
  sdk_step R1.
  2:{ left. destruct F as [S _]. simpl in S. split; congruence. }
  run. set (armed := armed_at w (now st0)).
  destruct armed eqn:EA; run.
  - (* already armed *)
    sdk_step R2.
    2:{ left. destruct F as [S _]. simpl in S. split; congruence. }
    run. set (in_air := in_air_at w (now st1)).
    destruct in_air eqn:EI; run.
    + repeat split; try flag. exists n, true, true, []. split; [reflexivity|].
      mlog_norm. rewrite Ea. mlog_norm. unfold preflight_head. trace_done.
    + sdk_step R3.
      2:{ left. destruct F as [S _]. simpl in S. split; congruence. }
      run. set (r := takeoff_at w (now st2)).
      destruct (Action.eqb r Action.Success) eqn:ER; run.
      2:{ right. right. split; auto. exists n, true, r. split.
          - intro E. apply Action_eqb_eq in E. congruence.
          - mlog_norm. rewrite Ea. mlog_norm. unfold preflight_head. trace_done. }
      apply Action_eqb_eq in ER. rewrite ER.
      match goal with
      | |- context [while ?f ?c ?b ?s] =>
          pose proof (altitude_loop_outcomes f s ltac:(flag)) as A;
          destruct (while f c b s) as [[] sa'|c1' sb'|sc'|sd']
      end; auto.
      * destruct A as [Tb [Sb [Cb (ps & p & _ & Bs & Bp & Eb)]]]. run.
        repeat split; try flag.
        exists n, true, false, (Takeoff Action.Success :: climbing ps ++ [GetPosition p]).
        split.
        -- exists ps, p. repeat split; auto.
           intro N. now apply reached_takeoff_altitude.
        -- mlog_norm. rewrite Eb. mlog_norm. rewrite Ea. mlog_norm.
           unfold preflight_head. trace_done.
      * left. destruct A as [-> S]. simpl in S. split; congruence.
      * destruct A as (ps & Lp & Bs & Eb). right. exists n, true, ps.
        repeat split; auto.
        rewrite Eb. mlog_norm. rewrite Ea. mlog_norm.
        unfold preflight_head. trace_done.
  - (* arm first *)
    sdk_step R2.
    2:{ left. destruct F as [S _]. simpl in S. split; congruence. }
    run. set (ra := arm_at w (now st1)).
    destruct (Action.eqb ra Action.Success) eqn:ERA; run.
    2:{ right. left. split; auto. exists n, ra. split.
        - intro E. apply Action_eqb_eq in E. congruence.
        - mlog_norm. rewrite Ea. trace_done. }
    apply Action_eqb_eq in ERA. rewrite ERA.
    sdk_step R3.
    2:{ left. destruct F as [S _]. simpl in S. split; congruence. }
    run. set (in_air := in_air_at w (now st2)).
    destruct in_air eqn:EI; run.
    + repeat split; try flag. exists n, false, true, [].
      split; [reflexivity|].
      mlog_norm. rewrite Ea. mlog_norm. unfold preflight_head. trace_done.
    + sdk_step R4.
      2:{ left. destruct F as [S _]. simpl in S. split; congruence. }
      run. set (r := takeoff_at w (now st3)).
      destruct (Action.eqb r Action.Success) eqn:ER; run.
      2:{ right. right. split; auto. exists n, false, r. split.
          - intro E. apply Action_eqb_eq in E. congruence.
          - mlog_norm. rewrite Ea. mlog_norm. unfold preflight_head. trace_done. }
      apply Action_eqb_eq in ER. rewrite ER.
      match goal with
      | |- context [while ?f ?c ?b ?s] =>
          pose proof (altitude_loop_outcomes f s ltac:(flag)) as A;
          destruct (while f c b s) as [[] sa'|c1' sb'|sc'|sd']
      end; auto.
      * destruct A as [Tb [Sb [Cb (ps & p & _ & Bs & Bp & Eb)]]]. run.
        repeat split; try flag.
        exists n, false, false, (Takeoff Action.Success :: climbing ps ++ [GetPosition p]).
        split.
        -- exists ps, p. repeat split; auto.
           intro N. now apply reached_takeoff_altitude.
        -- mlog_norm. rewrite Eb. mlog_norm. rewrite Ea. mlog_norm.
           unfold preflight_head. trace_done.
      * left. destruct A as [-> S]. simpl in S. split; congruence.
      * destruct A as (ps & Lp & Bs & Eb). right. exists n, false, ps.
        repeat split; auto.
        rewrite Eb. mlog_norm. rewrite Ea. mlog_norm.
        unfold preflight_head. trace_done.
Qed.

End Preflight.




(** ** The discovery block *)

Lemma extends_refl st : extends st st.
Proof. exists []. now rewrite app_nil_r. Qed.

Lemma extends_trans st1 st2 st3 :
  extends st1 st2 -> extends st2 st3 -> extends st1 st3.
Proof.
  intros [n1 E1] [n2 E2]. exists (n1 ++ n2). now rewrite E2, E1, app_assoc.
Qed.

Lemma extends_emit st st' ev : extends st st' -> extends st (emit ev st').
Proof.
  intro E. apply (extends_trans _ _ _ E). now exists [(thread st', ev)].
Qed.

Lemma extends_callbacks_ran st st1 st2 :
  callbacks_ran st1 st2 -> extends st st1 -> extends st st2.
Proof.
  intros [(evs & L & _) _ _ _ _ _ _] E. apply (extends_trans _ _ _ E).
  now exists (on_callback_thread evs).
Qed.

Lemma discovery_seen_later st st1 st2 :
  discovery_seen st st1 -> extends st1 st2 -> discovery_seen st st2.
Proof.
  intros (new & u & L & I) [more E]. exists (new ++ more), u. split.
  - now rewrite E, L, app_assoc.
  - apply in_or_app. auto.
Qed.

Lemma discovery_seen_earlier st st1 st2 :
  extends st st1 -> discovery_seen st1 st2 -> discovery_seen st st2.
Proof.
  intros [more E] (new & u & L & I). exists (more ++ new), u. split.
  - now rewrite L, E, app_assoc.
  - apply in_or_app. auto.
Qed.

Lemma callbacks_ran_discovery st st' :
  callbacks_ran st st' ->
  discovered_system st' = true ->
  discovered_system st = true \/ discovery_seen st st'.
Proof.
  intros [(evs & L & _ & [D | [D (u & I)]]) _ _ _ _ _ _] T.
  - left. congruence.
  - right. exists (on_callback_thread evs), u. split; auto.
    unfold on_callback_thread. now apply in_map.
Qed.

(** Chain the log extensions of the steps taken so far. *)
Ltac extends_tac :=
  repeat first
    [ apply extends_refl
    | apply extends_emit
    | progress change (extends ?a (with_on_discover ?b ?s)) with (extends a s)
    | progress change (extends ?a (with_flight_mode_subscribed ?b ?s))
        with (extends a s)
    | progress change (extends ?a (with_location_updates ?b ?s))
        with (extends a s)
    | progress change (extends ?a (with_count ?b ?s)) with (extends a s)
    | match goal with
      | R : callbacks_ran _ ?s |- extends _ ?s =>
          apply (extends_callbacks_ran _ _ _ R)
      end ].

Section Discovery.

Variables LAT LON : float.
Variable w : World.

#[local] Abbreviation wait_loop fuel :=
  (while fuel (d <- get_discovered_system ;; ret (negb d))
     (sdk LAT LON w (sleep_for 1) ;; ret Continue)%prog).

Lemma wait_loop_outcomes fuel : forall st,
  thread st = MainThread ->
  match wait_loop fuel st with
  | Val _ st' =>
      thread st' = MainThread /\
      flight_mode_subscribed st' = flight_mode_subscribed st /\
      count st' = count st /\
      discovered_system st' = true /\
      (discovered_system st = true \/ discovery_seen st st') /\
      extends st st' /\
      exists n, (n < fuel)%nat /\ mlog st' = mlog st ++ rounds [SleepFor 1] n
  | Exit c st' => c = 0 /\ flight_mode_subscribed st = true
  | Undefined _ => False
  | OutOfFuel st' => mlog st' = mlog st ++ rounds [SleepFor 1] fuel
  end.
Proof.
  induction fuel as [|fuel IH]; intros st T.
  - simpl. unfold out_of_fuel. now rewrite app_nil_r.
  - rewrite while_step. run.
    destruct (discovered_system st) eqn:D; run.
    + repeat split; auto using extends_refl. exists 0%nat. split; [lia|].
      simpl. now rewrite app_nil_r.
    + sdk_step R1.
      2:{ destruct F as [S _]. auto. }
      run.
      match goal with
      | |- match while _ _ _ ?s with _ => _ end =>
          specialize (IH s ltac:(flag));
          destruct (while _ _ _ s) as [[] sa|c1 sb|sc|sd]
      end; auto.
      * destruct IH as (Ta & Sa & Ca & Da & Seen & X & n & Lt & E).
        repeat split; try flag.
        -- right. destruct Seen as [Seen | Seen].
           ++ simpl in Seen.
              destruct (callbacks_ran_discovery _ _ R1 Seen) as [D'|D'];
                [congruence|].
              apply (discovery_seen_later _ _ _ D').
              apply (extends_trans _ (emit (SleepFor 1) st0)); auto.
              extends_tac.
           ++ apply (discovery_seen_earlier _ (emit (SleepFor 1) st0)); auto.
              extends_tac.
        -- apply (extends_trans _ (emit (SleepFor 1) st0)); auto.
           extends_tac.
        -- exists (Datatypes.S n). split; [lia|]. rewrite E.
           rewrite rounds_S. trace_done.
      * destruct IH as [-> S]. simpl in S. split; congruence.
      * rewrite IH. rewrite rounds_S. trace_done.
Qed.

(** Every way the discovery block can end. *)
Lemma discover_outcomes fuel st :
  thread st = MainThread ->
  match discover LAT LON w fuel st with
  | Val uuid st' =>
      thread st' = MainThread /\
      flight_mode_subscribed st' = flight_mode_subscribed st /\
      count st' = count st /\
      (discovered_system st = true \/ discovery_seen st st') /\
      exists n uuids uuids',
        (List.length uuids <= 1)%nat /\
        hd_error uuids' = Some uuid /\
        mlog st' = mlog st ++ discovery_head n ++
          [SystemUuids uuids; SystemUuids uuids'; GetSystem uuid]
  | Exit c st' =>
      (c = 0 /\ flight_mode_subscribed st = true)
      \/
      (c = 1 /\ exists n uuids,
         (1 < List.length uuids)%nat /\
         mlog st' = mlog st ++ discovery_head n ++
           [SystemUuids uuids;
            Cout [Str "Discovered more than one system! Exiting."; Endl]])
  | Undefined st' =>
      exists n uuids,
        (List.length uuids <= 1)%nat /\
        mlog st' = mlog st ++ discovery_head n ++
          [SystemUuids uuids; SystemUuids []]
  | OutOfFuel st' => mlog st' = mlog st ++ discovery_head fuel
  end.
Proof.
  intro T. unfold discover. run. sdk_step R1.
  2:{ left. destruct F as [S _]. auto. }
  run.
  match goal with
  | |- context [while ?f ?c ?b ?s] =>
      pose proof (wait_loop_outcomes f s ltac:(flag)) as L;
      destruct (while f c b s) as [[] sa|c1 sb|sc|sd]
  end; try contradiction.
  2:{ left. destruct L as [-> S]. split; [reflexivity | flag]. }
  2:{ rewrite L. unfold discovery_head. trace_done. }
  destruct L as (Ta & Sa & Ca & Da & Seen & X & n & _ & Ea). run.
  assert (discovered_system st = true \/ discovery_seen st sa) as Seen'.
  { destruct Seen as [D | D].
    - simpl in D.
      destruct (callbacks_ran_discovery _ _ R1 D) as [D' | D']; auto.
      right. eapply discovery_seen_earlier; [|eapply discovery_seen_later].
      + apply extends_emit, extends_refl.
      + exact D'.
      + eapply extends_trans; [|exact X]. extends_tac.
    - right. eapply discovery_seen_earlier; [|exact D]. extends_tac. }
  clear Seen. sdk_step R2.
  2:{ left. by_watchdog. }
  run. set (uuids := system_uuids_at w (now st1)).
  destruct (1 <? List.length uuids)%nat eqn:Many; run.
  { right. split; auto. exists n, uuids. apply Nat.ltb_lt in Many.
    split; auto. mlog_norm. rewrite Ea. unfold discovery_head. trace_done. }
  apply Nat.ltb_ge in Many.
  sdk_step R3.
  2:{ left. by_watchdog. }
  run. set (uuids' := system_uuids_at w (now st2)).
  destruct uuids' as [|uuid rest] eqn:EU; run.
  { exists n, uuids. split; auto. mlog_norm. rewrite Ea.
    unfold discovery_head. trace_done. }
  sdk_step R4.
  2:{ left. by_watchdog. }
  run. repeat split; try flag.
  - destruct Seen' as [D | D]; auto. right.
    apply (discovery_seen_later _ _ _ D). extends_tac.
  - exists n, uuids, (uuid :: rest). repeat split; auto.
    mlog_norm. rewrite Ea. unfold discovery_head. trace_done.
Qed.

(** A discovery that is delivered while the callback is registered sets
    the flag the main thread waits for. *)
Lemma deliver_all_discovers ds : forall st uuid,
  on_discover_registered st = true ->
  In (Discovered uuid) ds ->
  forall st', deliver_all LAT LON w ds st = Val tt st' ->
  discovered_system st' = true.
Proof.
  induction ds as [|d ds IH]; intros st u Reg I st' E; [destruct I|].
  simpl in E. rewrite bind_run in E.
  destruct (deliver_cases LAT LON w d st) as [(st1 & E1 & R1) | (st1 & E1 & _)];
    rewrite E1 in E; [|discriminate].
  destruct I as [-> | I].
  - assert (discovered_system st1 = true) as D.
    { unfold deliver in E1. simpl in E1. rewrite Reg in E1.
      injection E1 as <-. reflexivity. }
    destruct (deliver_all_cases LAT LON w ds st1)
      as [(st2 & E2 & R2) | (st2 & E2 & _)]; rewrite E2 in E;
      [|discriminate].
    injection E as <-. now apply (cr_discovered _ _ R2).
  - apply (IH st1 u); auto. destruct R1. congruence.
Qed.

(** Once the environment reports a discovery whenever the main thread
    sleeps, the wait ends. *)
Lemma wait_loop_terminates n fuel : forall st,
  on_discover_registered st = true ->
  (forall t, (n <= t)%nat -> exists uuid, In (Discovered uuid) (inbox w t)) ->
  (1 < fuel)%nat -> (n + 1 < now st + fuel)%nat ->
  forall st', wait_loop fuel st <> OutOfFuel st'.
Proof.
  induction fuel as [|fuel IH]; intros st Reg L F N st'; [lia|].
  rewrite while_step. run.
  destruct (discovered_system st) eqn:D; run; [discriminate|].
  unfold sdk at 1, yield. rewrite bind_run.
  destruct (deliver_all_cases LAT LON w (inbox w (now st)) st)
    as [(st1 & E1 & R1) | (st1 & E1 & _)]; rewrite E1; [|discriminate].
  run.
  pose proof (callbacks_ran_now _ _ R1) as Hn.
  pose proof (cr_on_discover _ _ R1) as Hd.
  destruct (Nat.lt_ge_cases (now st) n) as [Early | Late].
  - apply IH; auto; autorewrite with clock; try lia. flag.
  - destruct (L _ Late) as [u I].
    pose proof (deliver_all_discovers _ st u Reg I st1 E1) as D1.
    destruct fuel as [|fuel]; [lia|].
    rewrite while_step. run.
    change (discovered_system (emit (SleepFor 1) st1))
      with (discovered_system st1).
    rewrite D1. run.
    discriminate.
Qed.

Lemma discover_terminates n fuel st :
  (forall t, (n <= t)%nat -> exists uuid, In (Discovered uuid) (inbox w t)) ->
  (n + 1 < fuel)%nat ->
  forall st', discover LAT LON w fuel st <> OutOfFuel st'.
Proof.
  intros L N st'. unfold discover. run. sdk_step R1; [|discriminate]. run.
  match goal with
  | |- context [while ?f ?c ?b ?s] =>
      pose proof (wait_loop_terminates n f s ltac:(reflexivity) L
                    ltac:(lia) ltac:(lia)) as T;
      destruct (while f c b s) as [[] sa|c1 sb|sc|sd]
  end; try discriminate.
  2:{ exfalso. eapply T. reflexivity. }
  run. sdk_step R2; [|discriminate]. run.
  destruct (1 <? _)%nat; run; [discriminate|].
  sdk_step R3; [|discriminate]. run.
  destruct (system_uuids_at w (now st2)); run; [discriminate|].
  sdk_step R4; discriminate.
Qed.

End Discovery.

(** C2: the discovery block lets the program proceed only after the
    discovery callback has been invoked, and then only if the list of
    systems had at most one element when it was tested and was not empty
    when it was read again to take the system from it: exactly one
    system, if both reads of the list agree.  With more than one system
    at the test the process exits with status 1; with none at the second
    read, [front()] of an empty vector is undefined; and as long as
    nothing is discovered the main thread sleeps.  Both lists in the log
    are what the SDK reported at the moment of each read. *)
Theorem discovery_gate LAT LON w fuel st :
  thread st = MainThread ->
  discovered_system st = false ->
  answers_since w (now st)
    (log (final_state (discover LAT LON w fuel st))) /\
  match discover LAT LON w fuel st with
  | Val uuid st' =>
      discovery_seen st st' /\
      exists n uuids uuids',
        (List.length uuids <= 1)%nat /\
        hd_error uuids' = Some uuid /\
        (uuids' = uuids -> uuids = [uuid]) /\
        mlog st' = mlog st ++ discovery_head n ++
          [SystemUuids uuids; SystemUuids uuids'; GetSystem uuid]
  | Exit c st' =>
      (c = 0 /\ flight_mode_subscribed st = true)
      \/
      (c = 1 /\ exists n uuids,
         (1 < List.length uuids)%nat /\
         mlog st' = mlog st ++ discovery_head n ++
           [SystemUuids uuids;
            Cout [Str "Discovered more than one system! Exiting."; Endl]])
  | Undefined st' =>
      exists n uuids,
        (List.length uuids <= 1)%nat /\
        mlog st' = mlog st ++ discovery_head n ++
          [SystemUuids uuids; SystemUuids []]
  | OutOfFuel st' => mlog st' = mlog st ++ discovery_head fuel
  end.
Proof.
  intros T D. split.
  { apply answers_since_discover, answers_since_now. }
  pose proof (discover_outcomes LAT LON w fuel st T) as O.
  destruct (discover LAT LON w fuel st) as [uuid st'|c st'|st'|st']; auto.
  destruct O
    as (_ & _ & _ & [Seen | Seen] & n & uuids & uuids' & Le & Hd & E);
    [congruence|].
  split; auto. exists n, uuids, uuids'. repeat split; auto.
  intros ->. destruct uuids as [|u [|u' rest]]; simpl in *; try lia;
    congruence.
Qed.

Lemma discovery_gate_witness :
  answers_since Sample.discovering (now initial_state)
    (log (final_state
            (discover Sample.lat_deg_per_meter Sample.lon_deg_per_meter
               Sample.discovering 5 initial_state))) /\
  match discover Sample.lat_deg_per_meter Sample.lon_deg_per_meter
          Sample.discovering 5 initial_state with
  | Val uuid st' =>
      discovery_seen initial_state st' /\
      exists n uuids uuids',
        (List.length uuids <= 1)%nat /\
        hd_error uuids' = Some uuid /\
        (uuids' = uuids -> uuids = [uuid]) /\
        mlog st' = mlog initial_state ++ discovery_head n ++
          [SystemUuids uuids; SystemUuids uuids'; GetSystem uuid]
  | Exit c st' =>
      (c = 0 /\ flight_mode_subscribed initial_state = true)
      \/
      (c = 1 /\ exists n uuids,
         (1 < List.length uuids)%nat /\
         mlog st' = mlog initial_state ++ discovery_head n ++
           [SystemUuids uuids;
            Cout [Str "Discovered more than one system! Exiting."; Endl]])
  | Undefined st' =>
      exists n uuids,
        (List.length uuids <= 1)%nat /\
        mlog st' = mlog initial_state ++ discovery_head n ++
          [SystemUuids uuids; SystemUuids []]
  | OutOfFuel st' => mlog st' = mlog initial_state ++ discovery_head 5
  end.
Proof.
  apply (discovery_gate Sample.lat_deg_per_meter Sample.lon_deg_per_meter
           Sample.discovering 5 initial_state); reflexivity.
Defined.

(** A second system joins between the test of the number of systems and
    the choice of the system: the program proceeds past the discovery
    with two systems present, and flies the first of them. *)
Lemma discovery_gate_counterexample :
  exists st',
    discover Sample.lat_deg_per_meter Sample.lon_deg_per_meter
      Sample.joining 5 initial_state = Val 7 st' /\
    mlog st' =
      discovery_head 1 ++
      [SystemUuids [7]; SystemUuids [7; 9]; GetSystem 7].
Proof.
  exists (final_state
            (discover Sample.lat_deg_per_meter Sample.lon_deg_per_meter
               Sample.joining 5 initial_state)).
  vm_compute. repeat split; reflexivity.
Qed.

(** ** The start of follow-me *)

Section StartFollowMe.

Variables LAT LON : float.
Variable w : World.

(** Every way the block that starts follow-me can end.  The result of
    [set_config] is overwritten before anything reads it. *)
Lemma start_follow_me_outcomes st :
  thread st = MainThread ->
  match start_follow_me LAT LON w st with
  | Val _ st' =>
      thread st' = MainThread /\
      count st' = count st /\
      flight_mode_subscribed st' = true /\
      location_updates_requested st' = true /\
      exists r,
        mlog st' = mlog st ++
          [SetConfig follow_config r; Start FollowMe.Success;
           SubscribeFlightMode true;
           RequestLocationUpdates "localhost" 65191 0]
  | Exit c st' =>
      (c = 0 /\
       (flight_mode_subscribed st = true \/
        exists r,
          mlog st' = mlog st ++
            [SetConfig follow_config r; Start FollowMe.Success;
             SubscribeFlightMode true]))
      \/
      (c = EXIT_FAILURE /\ exists r r', r' <> FollowMe.Success /\
         mlog st' = mlog st ++
           [SetConfig follow_config r; Start r';
            Cerr (follow_me_error_text "Failed to start FollowMe mode" r')])
  | Undefined _ | OutOfFuel _ => False
  end.
Proof.
  intro T. unfold start_follow_me. cbv zeta. fold follow_config. run.
  sdk_step R1.
  2:{ left. destruct F as [S _]. auto. }
  run. set (r := set_config_at w (now st0)).
  sdk_step R2.
  2:{ left. destruct F as [S _]. simpl in S. split; auto. left. congruence. }
  run. set (r' := start_at w (now st1)).
  destruct (FollowMe.eqb r' FollowMe.Success) eqn:ER; run.
  2:{ right. split; auto. exists r, r'. split.
      - intro E. apply FollowMe_eqb_eq in E. congruence.
      - trace_done. }
  apply FollowMe_eqb_eq in ER. rewrite ER.
  sdk_step R3.
  2:{ left. destruct F as [S _]. simpl in S. split; auto. left. congruence. }
  run. sdk_step R4.
  2:{ left. split; auto. right. exists r. rewrite Hm2. trace_done. }
  run. repeat split; try flag. exists r. trace_done.
Qed.

(** The blocks before the follow loop leave the counter alone: the loop
    starts with the value the counter was initialised with. *)
Lemma count_untouched_before_follow_loop fuel st uuid st1 st2 st3 :
  thread st = MainThread ->
  discover LAT LON w fuel st = Val uuid st1 ->
  preflight LAT LON w fuel st1 = Val tt st2 ->
  start_follow_me LAT LON w st2 = Val tt st3 ->
  thread st3 = MainThread /\ count st3 = count st.
Proof.
  intros T E1 E2 E3.
  pose proof (discover_outcomes LAT LON w fuel st T) as O1.
  rewrite E1 in O1. destruct O1 as (T1 & _ & C1 & _).
  pose proof (preflight_outcomes LAT LON w fuel st1 T1) as O2.
  rewrite E2 in O2. destruct O2 as (T2 & _ & C2 & _).
  pose proof (start_follow_me_outcomes st2 T2) as O3.
  rewrite E3 in O3. destruct O3 as (T3 & C3 & _).
  split; congruence.
Qed.

End StartFollowMe.

(** ** Orderly runs of the main thread *)

Section Triples.

Variable allowed : Event -> bool.
Variables LAT LON : float.
Variable w : World.

#[local] Abbreviation orderly := (orderly allowed).
#[local] Abbreviation exited := (exited allowed).
#[local] Abbreviation pending := (pending allowed).
#[local] Abbreviation triple := (triple allowed).

Lemma entries_ok_on_callback_thread evs :
  forallb callback_event evs = true ->
  forallb (entry_ok allowed) (on_callback_thread evs) = true.
Proof.
  induction evs as [|ev evs IH]; simpl; auto.
  intro H. apply andb_true_iff in H as [H1 H2].
  unfold entry_ok at 1. simpl. rewrite H1. auto.
Qed.

Lemma orderly_emit ev st :
  orderly st -> allowed ev = true -> failed_command ev = false ->
  orderly (emit ev st).
Proof.
  intros [T F] A N. split; auto. simpl.
  rewrite forallb_app, F, T. simpl. unfold entry_ok. simpl.
  now rewrite A, N.
Qed.

Lemma pending_emit ev st :
  orderly st -> allowed ev = true -> pending ev (emit ev st).
Proof.
  intros [T F] A. repeat split; auto. exists (log st). simpl.
  now rewrite T.
Qed.

Lemma orderly_callbacks_ran st st' :
  orderly st -> callbacks_ran st st' -> orderly st'.
Proof.
  intros [T F] [(evs & L & C & _) T' _ _ _ _ _]. split; [congruence|].
  rewrite L, forallb_app, F. simpl.
  now apply entries_ok_on_callback_thread.
Qed.

Lemma exited_watchdog st st' :
  orderly st -> watchdog_fired st st' -> exited 0 st'.
Proof.
  intros O [_ (st1 & m & R & NE & L)].
  destruct (orderly_callbacks_ran _ _ O R) as [_ F].
  exists (log st1), (on_callback_thread
                       [Invoke (FlightModeUpdate m); Cout watchdog_text]).
  repeat split; auto. now apply (exit_by_watchdog _ _ _ m).
Qed.

Lemma triple_ret {A} (a : A) : triple orderly (ret a) (fun _ => orderly).
Proof. intros st O. exact O. Qed.

Lemma triple_bind {A B} P (m : M A) Q (k : A -> M B) R :
  triple P m Q -> (forall a, triple (Q a) (k a) R) -> triple P (bind m k) R.
Proof.
  intros Hm Hk st HP. unfold bind. specialize (Hm st HP).
  destruct (m st) as [a st'|c st'|st'|st']; auto.
  apply Hk. exact Hm.
Qed.

Lemma triple_while fuel cond body :
  triple orderly cond (fun _ => orderly) ->
  triple orderly body (fun _ => orderly) ->
  triple orderly (while fuel cond body) (fun _ => orderly).
Proof.
  intros Hc Hb. induction fuel as [|fuel IH].
  - intros st O. exact O.
  - rewrite while_step. apply (triple_bind _ _ _ _ _ Hc). intros [|].
    + apply (triple_bind _ _ _ _ _ Hb). intros [|]; auto using triple_ret.
    + apply triple_ret.
Qed.

Lemma triple_sdk {A} (op : M A) Q :
  triple orderly op Q -> triple orderly (sdk LAT LON w op) Q.
Proof.
  intros H st O.
  destruct (sdk_cases LAT LON w op st) as [(st1 & R & ->) | (st' & F & ->)].
  - apply H. eauto using orderly_callbacks_ran.
  - eauto using exited_watchdog.
Qed.

Lemma triple_call_ok {A} (answer : nat -> A) ev :
  (forall a, allowed (ev a) = true) ->
  (forall a, failed_command (ev a) = false) ->
  triple orderly (call answer ev) (fun _ => orderly).
Proof. intros Ha Hf st O. apply orderly_emit; auto. Qed.

Lemma triple_call_pending {A} (answer : nat -> A) ev :
  (forall a, allowed (ev a) = true) ->
  triple orderly (call answer ev) (fun a => pending (ev a)).
Proof. intros Ha st O. apply pending_emit; auto. Qed.

Lemma triple_cout text :
  allowed (Cout text) = true -> triple orderly (cout text) (fun _ => orderly).
Proof. intros Ha st O. apply orderly_emit; auto. Qed.

Lemma triple_sleep_for n :
  allowed (SleepFor n) = true ->
  triple orderly (sleep_for n) (fun _ => orderly).
Proof. intros Ha st O. apply orderly_emit; auto. Qed.

Lemma triple_dc_register_on_discover :
  allowed RegisterOnDiscover = true ->
  triple orderly dc_register_on_discover (fun _ => orderly).
Proof.
  intros Ha st O. apply (orderly_emit RegisterOnDiscover) in O; auto.
Qed.

Lemma triple_dc_system uuid :
  allowed (GetSystem uuid) = true ->
  triple orderly (dc_system uuid) (fun _ => orderly).
Proof. intros Ha st O. apply orderly_emit; auto. Qed.

Lemma triple_telemetry_subscribe_flight_mode on :
  allowed (SubscribeFlightMode on) = true ->
  triple orderly (telemetry_subscribe_flight_mode on) (fun _ => orderly).
Proof.
  intros Ha st O. apply (orderly_emit (SubscribeFlightMode on)) in O; auto.
Qed.

Lemma triple_location_provider_request_location_updates host port id :
  allowed (RequestLocationUpdates host port id) = true ->
  triple orderly (location_provider_request_location_updates host port id)
    (fun _ => orderly).
Proof.
  intros Ha st O.
  apply (orderly_emit (RequestLocationUpdates host port id)) in O; auto.
Qed.

Lemma triple_get_discovered_system :
  triple orderly get_discovered_system (fun _ => orderly).
Proof. intros st O. exact O. Qed.

Lemma triple_pre_increment_count :
  triple orderly pre_increment_count (fun _ => orderly).
Proof.
  intros st O. unfold pre_increment_count.
  destruct (count st =? INT_MAX); exact O.
Qed.

Lemma triple_argv_at argv i :
  triple orderly (argv_at argv i) (fun _ => orderly).
Proof.
  intros st O. unfold argv_at. destruct (nth_error argv i); exact O.
Qed.

Lemma triple_undefined {A} Q : triple orderly (@undefined A) Q.
Proof. intros st O. exact O. Qed.

Lemma triple_too_many_systems {A} Q :
  allowed (Cout [Str "Discovered more than one system! Exiting."; Endl])
  = true ->
  triple orderly
    (cout [Str "Discovered more than one system! Exiting."; Endl] ;;
     @exit A 1)%prog Q.
Proof.
  intros Ha st [T F]. unfold bind, cout, exit.
  exists (log st), (on_main_thread
    [Cout [Str "Discovered more than one system! Exiting."; Endl]]).
  simpl. rewrite T. repeat split; auto.
  now apply exit_too_many_systems.
Qed.

Lemma triple_action_error_exit r message ev :
  failed_command ev = negb (Action.eqb r Action.Success) ->
  triple (pending ev) (action_error_exit r message) (fun _ => orderly).
Proof.
  intros Hf st (T & A & l & L & F). rewrite action_error_exit_run.
  destruct (Action.eqb r Action.Success); simpl in Hf.
  - split; auto. rewrite L, forallb_app, F. simpl. unfold entry_ok. simpl.
    now rewrite A, Hf.
  - exists l, (on_main_thread [ev; Cerr (action_error_text message r)]).
    simpl. rewrite T, L, <- app_assoc. repeat split; auto.
    now apply (exit_failed_command _ _ _ ev (action_error_text message r)).
Qed.

Lemma triple_follow_me_error_exit r message ev :
  failed_command ev = negb (FollowMe.eqb r FollowMe.Success) ->
  triple (pending ev) (follow_me_error_exit r message) (fun _ => orderly).
Proof.
  intros Hf st (T & A & l & L & F). rewrite follow_me_error_exit_run.
  destruct (FollowMe.eqb r FollowMe.Success); simpl in Hf.
  - split; auto. rewrite L, forallb_app, F. simpl. unfold entry_ok. simpl.
    now rewrite A, Hf.
  - exists l, (on_main_thread [ev; Cerr (follow_me_error_text message r)]).
    simpl. rewrite T, L, <- app_assoc. repeat split; auto.
    now apply (exit_failed_command _ _ _ ev
                 (follow_me_error_text message r)).
Qed.

End Triples.

(** Decompose a block of [main] along its structure. *)
Ltac triple_leaf :=
  first
    [ apply triple_ret
    | apply triple_cout; reflexivity
    | apply triple_sleep_for; reflexivity
    | apply triple_dc_register_on_discover; reflexivity
    | apply triple_dc_system; reflexivity
    | apply triple_telemetry_subscribe_flight_mode; reflexivity
    | apply triple_location_provider_request_location_updates; reflexivity
    | apply triple_get_discovered_system
    | apply triple_pre_increment_count
    | apply triple_argv_at
    | apply triple_undefined
    | apply triple_too_many_systems; reflexivity
    | apply triple_action_error_exit; reflexivity
    | apply triple_follow_me_error_exit; reflexivity
    | solve [apply triple_call_ok; intros; reflexivity]
    | solve [apply triple_call_pending; intros; reflexivity] ].

Ltac triple_auto :=
  lazymatch goal with
  | |- triple _ _ (bind (cout _) (fun _ => exit _)) _ => triple_leaf
  | |- triple _ _ (bind _ _) _ =>
      eapply triple_bind; [triple_auto | intro; triple_auto]
  | |- triple _ _ (sdk _ _ _ _) _ => apply triple_sdk; triple_auto
  | |- triple _ _ (while _ _ _) _ => apply triple_while; triple_auto
  | |- triple _ _ (if ?b then _ else _) _ => destruct b; triple_auto
  | |- triple _ _ (match ?l with [] => _ | _ :: _ => _ end) _ =>
      destruct l; triple_auto
  | |- _ => triple_leaf
  end.

Ltac unfold_program :=
  unfold main, fly, approach, discover, preflight, start_follow_me,
    follow_loop, shutdown, usage, dc_add_any_connection, dc_system_uuids,
    telemetry_health_all_ok, telemetry_armed, telemetry_in_air,
    telemetry_position, action_arm, action_takeoff, action_land,
    follow_me_set_config, follow_me_start, follow_me_stop,
    location_provider_is_running;
  cbv zeta.

Section OrderlyMain.

Variables LAT LON : float.
Variable w : World.

(** Before the shutdown block the main thread sends neither Stop nor
    Land, and whatever ends the process there is one of the three exits. *)
Lemma approach_orderly fuel :
  triple before_shutdown (orderly before_shutdown) (approach LAT LON w fuel)
    (fun _ => orderly before_shutdown).
Proof. unfold_program. triple_auto. Qed.

Lemma shutdown_orderly fuel :
  triple any_event (orderly any_event) (shutdown LAT LON w fuel)
    (fun _ => orderly any_event).
Proof. unfold_program. triple_auto. Qed.

Lemma main_orderly fuel argv :
  triple any_event (orderly any_event) (main LAT LON w fuel argv)
    (fun _ => orderly any_event).
Proof. unfold_program. triple_auto. Qed.

End OrderlyMain.

(** ** What a run of [main] looks like *)

Lemma in_main_events ev l :
  In ev (main_events l) <-> In (MainThread, ev) l.
Proof.
  unfold main_events. rewrite in_map_iff. split.
  - intros ([t e] & E & I). simpl in E. subst e.
    apply filter_In in I as [I M]. simpl in M. destruct t; [auto|discriminate].
  - intro I. exists (MainThread, ev). split; auto.
    apply filter_In. auto.
Qed.

Lemma orderly_initial allowed : orderly allowed initial_state.
Proof. split; reflexivity. Qed.

Lemma entries_ok_main allowed l ev :
  forallb (entry_ok allowed) l = true ->
  In (MainThread, ev) l ->
  allowed ev = true /\ failed_command ev = false.
Proof.
  intros F I. rewrite forallb_forall in F. specialize (F _ I).
  unfold entry_ok in F. simpl in F. apply andb_true_iff in F as [A N].
  split; auto. now apply negb_true_iff.
Qed.

Lemma entries_ok_callback allowed l ev :
  forallb (entry_ok allowed) l = true ->
  In (CallbackThread, ev) l ->
  callback_event ev = true.
Proof.
  intros F I. rewrite forallb_forall in F. exact (F _ I).
Qed.

Lemma in_on_callback_thread t ev evs :
  In (t, ev) (on_callback_thread evs) -> t = CallbackThread /\ In ev evs.
Proof.
  unfold on_callback_thread. rewrite in_map_iff.
  intros (e & E & I). injection E as <- <-. auto.
Qed.

Lemma in_on_main_thread t ev evs :
  In (t, ev) (on_main_thread evs) -> t = MainThread /\ In ev evs.
Proof.
  unfold on_main_thread. rewrite in_map_iff.
  intros (e & E & I). injection E as <- <-. auto.
Qed.

(** Whatever the main thread did in a state that is orderly, or in which
    the process exited, was allowed. *)
Lemma orderly_allowed allowed st ev :
  orderly allowed st -> In ev (mlog st) -> allowed ev = true.
Proof.
  intros [_ F] I. apply in_main_events in I.
  now destruct (entries_ok_main _ _ _ F I).
Qed.

Lemma exited_allowed c st ev :
  exited before_shutdown c st -> In ev (mlog st) ->
  before_shutdown ev = true.
Proof.
  intros (l & tail & L & F & X) I. apply in_main_events in I.
  rewrite L in I. apply in_app_or in I as [I | I].
  - now destruct (entries_ok_main _ _ _ F I).
  - destruct X as [m _ _ -> | _ -> | ev' text _ _ A ->].
    + apply in_on_callback_thread in I as [I _]. discriminate.
    + apply in_on_main_thread in I as [_ [<- | []]]. reflexivity.
    + apply in_on_main_thread in I as [_ [<- | [<- | []]]]; auto.
Qed.

Section Runs.

Variables LAT LON : float.
Variable w : World.

(** How [fly] can exit: after the watchdog, Land was never sent and Stop,
    if it was sent at all, succeeded and was the last thing the main
    thread did; after a failed Stop, Land was never sent. *)
Lemma fly_exit fuel st c st' :
  orderly before_shutdown st ->
  fly LAT LON w fuel st = Exit c st' ->
  (c = 0 ->
   (forall r, ~ In (Land r) (mlog st')) /\
   (forall r, In (Stop r) (mlog st') ->
      r = FollowMe.Success /\
      exists l, mlog st' = l ++ [Stop FollowMe.Success])) /\
  (forall r, r <> FollowMe.Success -> In (Stop r) (mlog st') ->
     forall r', ~ In (Land r') (mlog st')).
Proof.
  intros O E. unfold fly in E. rewrite bind_run in E.
  pose proof (approach_orderly LAT LON w fuel st O) as A.
  destruct (approach LAT LON w fuel st) as [[] st1|c1 st1|st1|st1];
    try discriminate.
  - (* the shutdown block was entered *)
    pose proof (shutdown_outcomes LAT LON w fuel st1 (proj1 A)) as S.
    rewrite E in S. clear E.
    assert (forall ev, In ev (mlog st1) -> before_shutdown ev = true) as B
      by (intros ev; apply orderly_allowed; exact A).
    assert (forall r, ~ In (Land r) (mlog st1)) as NL
      by (intros r I; apply B in I; discriminate).
    assert (forall r, ~ In (Stop r) (mlog st1)) as NS
      by (intros r I; apply B in I; discriminate).
    unfold EXIT_FAILURE in S.
    destruct S as [(-> & _ & [L | L]) | [(-> & r0 & N0 & L) | (-> & r0 & N0 & L)]];
      rewrite L; (split; [intro Z; try discriminate Z; split|]).
    + apply NL.
    + intros r I. now apply NS in I.
    + intros r N I. now apply NS in I.
    + intros r I. apply in_app_or in I as [I | [I | []]];
        [now apply NL in I | discriminate].
    + intros r I. apply in_app_or in I as [I | [I | []]];
        [now apply NS in I|]. injection I as <-. eauto.
    + intros r N I r' I'. apply in_app_or in I' as [I' | [I' | []]];
        [now apply NL in I' | discriminate].
    + intros r N I r' I'.
      apply in_app_or in I' as [I' | [I' | [I' | []]]];
        [now apply NL in I' | discriminate | discriminate].
    + intros r N I.
      apply in_app_or in I as [I | [I | [I | [I | [I | []]]]]];
        try discriminate; [now apply NS in I|].
      injection I as <-. congruence.
  - (* the process ended before the shutdown block *)
    injection E as -> ->.
    assert (forall ev, In ev (mlog st') -> before_shutdown ev = true) as B
      by (intros ev; apply exited_allowed with (c := c); exact A).
    split; [intros _; split|].
    + intros r I. apply B in I. discriminate.
    + intros r I. apply B in I. discriminate.
    + intros r _ I. apply B in I. discriminate.
Qed.

(** A run of [main] either never reaches [fly], and then ends without
    an exit, or is a run of [fly] from an orderly state. *)
Lemma main_cases fuel argv :
  (exists st, orderly before_shutdown st /\
              main LAT LON w fuel argv initial_state = fly LAT LON w fuel st)
  \/
  (forall c st', main LAT LON w fuel argv initial_state <> Exit c st').
Proof.
  unfold main. cbv zeta.
  destruct (Z.of_nat (List.length argv) =? 2).
  2:{ right. intros c st'. unfold argv_at.
      destruct (nth_error argv 0); discriminate. }
  unfold argv_at. destruct (nth_error argv 1) as [url|].
  2:{ right. discriminate. }
  run. sdk_step R.
  2:{ exfalso. destruct F as [S _]. discriminate. }
  run.
  destruct (ConnectionResult.eqb _ _); run.
  - left. eexists. split; [|reflexivity].
    pose proof (orderly_callbacks_ran before_shutdown _ _
                  (orderly_initial _) R) as O.
    apply orderly_emit; auto.
  - right. discriminate.
Qed.

(** A run in which the watchdog saw a flight mode other than FollowMe
    ended there, with status 0. *)
Lemma observed_by_watchdog fuel argv flight_mode :
  flight_mode <> Telemetry.FollowMe ->
  In (CallbackThread, Invoke (FlightModeUpdate flight_mode))
     (log (final_state (main LAT LON w fuel argv initial_state))) ->
  exists st' l,
    main LAT LON w fuel argv initial_state = Exit 0 st' /\
    log st' = l ++ on_callback_thread
                     [Invoke (FlightModeUpdate flight_mode);
                      Cout watchdog_text] /\
    forallb (entry_ok any_event) l = true.
Proof.
  intros NE I.
  pose proof (main_orderly LAT LON w fuel argv initial_state
                (orderly_initial _)) as O.
  assert (callback_event (Invoke (FlightModeUpdate flight_mode)) = false)
    as Bad.
  { simpl. destruct (Telemetry.eqb flight_mode Telemetry.FollowMe) eqn:E;
      auto. apply FlightMode_eqb_eq in E. contradiction. }
  destruct (main LAT LON w fuel argv initial_state)
    as [r st'|c st'|st'|st']; simpl in I.
  1,3,4: destruct O as [_ F];
    pose proof (entries_ok_callback _ _ _ F I); congruence.
  destruct O as (l & tail & L & F & X). rewrite L in I.
  apply in_app_or in I as [I | I].
  { pose proof (entries_ok_callback _ _ _ F I). congruence. }
  destruct X as [m -> _ -> | _ -> | ev text _ _ _ ->].
  - destruct I as [I | [I | []]]; [|discriminate].
    injection I as ->. eauto.
  - apply in_on_main_thread in I as [I _]. discriminate.
  - apply in_on_main_thread in I as [I _]. discriminate.
Qed.

(** While the subscription is active, a pending update with a flight
    mode other than FollowMe ends the process before the main thread's
    next SDK call is made. *)
Lemma deliver_all_watchdog ds : forall st flight_mode,
  flight_mode_subscribed st = true ->
  flight_mode <> Telemetry.FollowMe ->
  In (FlightModeUpdate flight_mode) ds ->
  exists st', deliver_all LAT LON w ds st = Exit 0 st'.
Proof.
  induction ds as [|d ds IH]; intros st m S NE I; [destruct I|].
  simpl. rewrite bind_run.
  destruct (deliver_cases LAT LON w d st) as [(st1 & E & R) | (st1 & E & _)];
    rewrite E; eauto.
  destruct I as [-> | I].
  - exfalso. unfold deliver in E. simpl in E. rewrite S in E.
    unfold bind, invoke, on_flight_mode, bind in E. simpl in E.
    destruct (Telemetry.eqb m Telemetry.FollowMe) eqn:EM.
    + apply FlightMode_eqb_eq in EM. contradiction.
    + simpl in E. discriminate.
  - apply (IH st1 m); auto. destruct R. congruence.
Qed.

Lemma watchdog_preempts_sdk_call {A} (op : M A) st flight_mode :
  flight_mode_subscribed st = true ->
  flight_mode <> Telemetry.FollowMe ->
  In (FlightModeUpdate flight_mode) (inbox w (now st)) ->
  exists st', sdk LAT LON w op st = Exit 0 st'.
Proof.
  intros S NE I. unfold sdk. rewrite bind_run. unfold yield.
  destruct (deliver_all_watchdog _ st flight_mode S NE I) as [st' ->].
  eauto.
Qed.

(** Nothing is delivered as long as no callback is registered. *)
Lemma deliver_all_unregistered ds st :
  on_discover_registered st = false ->
  flight_mode_subscribed st = false ->
  location_updates_requested st = false ->
  deliver_all LAT LON w ds st = Val tt st.
Proof.
  intros D F L. induction ds as [|d ds IH]; auto.
  simpl. rewrite bind_run. unfold deliver.
  replace (callback_enabled d st) with false
    by (destruct d; simpl; congruence).
  exact IH.
Qed.

End Runs.

(** C3: in every run of [main], once the flight-mode callback has been
    invoked with a flight mode other than FollowMe the process is over:
    it exited, and after that invocation the log holds the line the
    callback prints before [exit] and nothing else, no further step of
    the main thread and no further callback.  Before it, no such
    invocation had happened. *)
Theorem watchdog_ends_the_process LAT LON w fuel argv flight_mode :
  flight_mode <> Telemetry.FollowMe ->
  In (CallbackThread, Invoke (FlightModeUpdate flight_mode))
     (log (final_state (main LAT LON w fuel argv initial_state))) ->
  exists code st' l,
    main LAT LON w fuel argv initial_state = Exit code st' /\
    log st' = l ++ on_callback_thread
                     [Invoke (FlightModeUpdate flight_mode);
                      Cout watchdog_text] /\
    forallb (entry_ok any_event) l = true.
Proof.
  intros NE I.
  destruct (observed_by_watchdog LAT LON w fuel argv flight_mode NE I)
    as (st' & l & E & L & F).
  exists 0, st', l. auto.
Qed.

Lemma watchdog_ends_the_process_witness :
  exists code st' l,
    main Sample.lat_deg_per_meter Sample.lon_deg_per_meter
      Sample.interrupted 5 Sample.argv initial_state = Exit code st' /\
    log st' = l ++ on_callback_thread
                     [Invoke (FlightModeUpdate (Telemetry.Other 3));
                      Cout watchdog_text] /\
    forallb (entry_ok any_event) l = true.
Proof.
  apply (watchdog_ends_the_process Sample.lat_deg_per_meter
           Sample.lon_deg_per_meter Sample.interrupted 5 Sample.argv
           (Telemetry.Other 3)).
  - discriminate.
  - vm_compute. repeat (first [left; reflexivity | right]).
Defined.

(** C10: a run of [main] in which the watchdog saw a flight mode other
    than FollowMe exited with status 0, which is not [EXIT_FAILURE]; the
    land command was never sent; and the stop command was sent only if
    the watchdog fired right after it succeeded, before the main thread
    could cancel the subscription. *)
Theorem watchdog_exit_status LAT LON w fuel argv flight_mode :
  flight_mode <> Telemetry.FollowMe ->
  In (CallbackThread, Invoke (FlightModeUpdate flight_mode))
     (log (final_state (main LAT LON w fuel argv initial_state))) ->
  exists st',
    main LAT LON w fuel argv initial_state = Exit 0 st' /\
    0 <> EXIT_FAILURE /\
    (forall r, ~ In (Land r) (mlog st')) /\
    (forall r, In (Stop r) (mlog st') ->
       r = FollowMe.Success /\
       exists l, mlog st' = l ++ [Stop FollowMe.Success]).
Proof.
  intros NE I.
  destruct (observed_by_watchdog LAT LON w fuel argv flight_mode NE I)
    as (st' & l & E & L & F).
  exists st'. split; auto. split; [discriminate|].
  destruct (main_cases LAT LON w fuel argv) as [(st & O & M) | M].
  - rewrite M in E.
    destruct (fly_exit LAT LON w fuel st 0 st' O E) as [Z _]. auto.
  - exfalso. exact (M _ _ E).
Qed.

Lemma watchdog_exit_status_witness :
  exists st',
    main Sample.lat_deg_per_meter Sample.lon_deg_per_meter
      Sample.interrupted 5 Sample.argv initial_state = Exit 0 st' /\
    0 <> EXIT_FAILURE /\
    (forall r, ~ In (Land r) (mlog st')) /\
    (forall r, In (Stop r) (mlog st') ->
       r = FollowMe.Success /\
       exists l, mlog st' = l ++ [Stop FollowMe.Success]).
Proof.
  apply (watchdog_exit_status Sample.lat_deg_per_meter
           Sample.lon_deg_per_meter Sample.interrupted 5 Sample.argv
           (Telemetry.Other 3)).
  - discriminate.
  - vm_compute. repeat (first [left; reflexivity | right]).
Defined.

(** The window between the stop and the end of the subscription is
    real: in this run the watchdog ends the process after follow-me was
    stopped, and the vehicle is never told to land. *)
Example watchdog_after_stop :
  exists st',
    main Sample.lat_deg_per_meter Sample.lon_deg_per_meter
      Sample.late_change 5 Sample.argv initial_state = Exit 0 st' /\
    last (mlog st') (SleepFor 0) = Stop FollowMe.Success.
Proof.
  eexists. split.
  - vm_compute. reflexivity.
  - vm_compute. reflexivity.
Qed.

(** C9: in every run of [main], a result other than Success of arm,
    takeoff, land, follow-me start or follow-me stop ends the process
    with [EXIT_FAILURE]: the log ends with that result and the error
    line, so nothing is sent after it, and every command before it had
    succeeded.  After a failed stop the land command was never sent. *)
Theorem failed_command_exits LAT LON w fuel argv ev :
  failed_command ev = true ->
  In (MainThread, ev)
     (log (final_state (main LAT LON w fuel argv initial_state))) ->
  exists st' l text,
    main LAT LON w fuel argv initial_state = Exit EXIT_FAILURE st' /\
    log st' = l ++ on_main_thread [ev; Cerr text] /\
    forallb (entry_ok any_event) l = true /\
    (is_stop ev = true -> forall r, ~ In (Land r) (mlog st')).
Proof.
  intros Failed I.
  pose proof (main_orderly LAT LON w fuel argv initial_state
                (orderly_initial _)) as O.
  destruct (main LAT LON w fuel argv initial_state)
    as [r st'|c st'|st'|st'] eqn:E; simpl in I.
  1,3,4: destruct O as [_ F];
    destruct (entries_ok_main _ _ _ F I); congruence.
  destruct O as (l & tail & L & F & X). rewrite L in I.
  assert (~ In (MainThread, ev) l) as NI
    by (intro I'; destruct (entries_ok_main _ _ _ F I'); congruence).
  apply in_app_or in I as [I | I]; [contradiction|].
  destruct X as [m _ _ -> | _ -> | ev' text -> F' _ ->].
  - apply in_on_callback_thread in I as [I _]. discriminate.
  - apply in_on_main_thread in I as [_ [<- | []]]. discriminate.
  - apply in_on_main_thread in I as [_ [<- | [<- | []]]]; [|discriminate].
    exists st', l, text. repeat split; auto.
    intros S r. destruct ev'; try discriminate S.
    destruct (main_cases LAT LON w fuel argv) as [(st & O & M) | M].
    + rewrite M in E.
      destruct (fly_exit LAT LON w fuel st _ st' O E) as [_ Z].
      apply (Z r0).
      * intros ->. discriminate.
      * apply in_main_events. rewrite L. apply in_or_app. right.
        left. reflexivity.
    + exfalso. exact (M _ _ E).
Qed.

Lemma failed_command_exits_witness :
  exists st' l text,
    main Sample.lat_deg_per_meter Sample.lon_deg_per_meter
      Sample.stop_refused 5 Sample.argv initial_state
    = Exit EXIT_FAILURE st' /\
    log st' = l ++ on_main_thread [Stop (FollowMe.Other 5); Cerr text] /\
    forallb (entry_ok any_event) l = true /\
    (is_stop (Stop (FollowMe.Other 5)) = true ->
     forall r, ~ In (Land r) (mlog st')).
Proof.
  apply (failed_command_exits Sample.lat_deg_per_meter
           Sample.lon_deg_per_meter Sample.stop_refused 5 Sample.argv
           (Stop (FollowMe.Other 5))).
  - reflexivity.
  - vm_compute. repeat (first [left; reflexivity | right]).
Defined.

(** Without even a program name, [usage(argv[0])] reads past the
    arguments. *)
Lemma main_without_argv LAT LON w fuel st :
  main LAT LON w fuel [] st = Undefined st.
Proof. reflexivity. Qed.

(** C8: started with a number of arguments other than two (the program
    name and the URL), [main] prints the usage text and returns 1, and
    that print is all it does; started with a URL whose connection does
    not succeed, it makes the connection attempt, prints that it failed
    and returns 1, and those two steps are all it does. *)
Theorem main_rejects_bad_invocation LAT LON w fuel :
  (forall argv,
     argv <> [] -> List.length argv <> 2%nat ->
     exists bin_name st',
       nth_error argv 0 = Some bin_name /\
       main LAT LON w fuel argv initial_state = Val 1 st' /\
       log st' = on_main_thread [Cout (usage_text bin_name)]) /\
  (forall bin_name url,
     add_any_connection_at w 0 url <> ConnectionResult.Success ->
     exists st',
       main LAT LON w fuel [bin_name; url] initial_state = Val 1 st' /\
       log st' =
         on_main_thread
           [AddAnyConnection url (add_any_connection_at w 0 url);
            Cout [Str ERROR_CONSOLE_TEXT; Str "Connection failed: ";
                  ConnRes (add_any_connection_at w 0 url);
                  Str NORMAL_CONSOLE_TEXT; Endl]]).
Proof.
  split.
  - intros argv NE Len. unfold main. cbv zeta.
    destruct (Z.eqb_spec (Z.of_nat (List.length argv)) 2) as [E|_]; [lia|].
    destruct argv as [|bin_name rest]; [contradiction|].
    exists bin_name. eexists. split; [reflexivity|].
    split; reflexivity.
  - intros bin_name url Failed. unfold main. cbv zeta.
    change (Z.of_nat (List.length [bin_name; url]) =? 2) with true.
    change (argv_at [bin_name; url] 1) with (@ret string url).
    run. unfold sdk, yield. run.
    rewrite deliver_all_unregistered by reflexivity. run.
    change (now initial_state) with 0%nat.
    destruct (ConnectionResult.eqb _ _) eqn:E; run.
    + apply ConnectionResult_eqb_eq in E. contradiction.
    + eexists. split; reflexivity.
Qed.

Lemma main_rejects_bad_invocation_witness :
  (exists bin_name st',
     nth_error ["follow_me"%string] 0 = Some bin_name /\
     main Sample.lat_deg_per_meter Sample.lon_deg_per_meter Sample.calm 5
       ["follow_me"%string] initial_state = Val 1 st' /\
     log st' = on_main_thread [Cout (usage_text bin_name)]) /\
  (exists st',
     main Sample.lat_deg_per_meter Sample.lon_deg_per_meter
       Sample.unreachable 5 Sample.argv initial_state = Val 1 st' /\
     log st' =
       on_main_thread
         [AddAnyConnection "udp://:14540" (ConnectionResult.Other 1);
          Cout [Str ERROR_CONSOLE_TEXT; Str "Connection failed: ";
                ConnRes (ConnectionResult.Other 1);
                Str NORMAL_CONSOLE_TEXT; Endl]]).
Proof.
  split.
  - apply (proj1 (main_rejects_bad_invocation Sample.lat_deg_per_meter
                    Sample.lon_deg_per_meter Sample.calm 5)).
    + discriminate.
    + simpl. lia.
  - apply (proj2 (main_rejects_bad_invocation Sample.lat_deg_per_meter
                    Sample.lon_deg_per_meter Sample.unreachable 5)
             "follow_me"%string "udp://:14540"%string).
    simpl. discriminate.
Defined.

(** Started without even a program name ([argc] = 0, which is not 2),
    [main] does not print the usage text and return 1: [usage(argv[0])]
    reads an argument that is not there. *)
Lemma main_rejects_bad_invocation_counterexample :
  List.length (@nil string) <> 2%nat /\
  main Sample.lat_deg_per_meter Sample.lon_deg_per_meter Sample.calm 5 []
    initial_state = Undefined initial_state /\
  forall st',
    main Sample.lat_deg_per_meter Sample.lon_deg_per_meter Sample.calm 5 []
      initial_state <> Val 1 st'.
Proof.
  split; [discriminate|]. split; [reflexivity | discriminate].
Qed.

(** * Further properties *)

(** ** The callbacks *)

(** Not-a-number propagates through the arithmetic of the sanity check. *)
Lemma is_nan_sub x y :
  is_nan x = true \/ is_nan y = true -> is_nan (x - y) = true.
Proof.
  rewrite !is_nan_spec, sub_spec. unfold SF64sub.
  intros [-> | ->]; [reflexivity|]. destruct (Prim2SF x); reflexivity.
Qed.

Lemma is_nan_abs x : is_nan x = true -> is_nan (abs x) = true.
Proof. rewrite !is_nan_spec, abs_spec. intros ->. reflexivity. Qed.

Lemma is_nan_div x y :
  is_nan x = true \/ is_nan y = true -> is_nan (x / y) = true.
Proof.
  rewrite !is_nan_spec, div_spec. unfold SF64div.
  intros [-> | ->]; [reflexivity|]. destruct (Prim2SF x); reflexivity.
Qed.

Lemma nan_not_below x y : is_nan x = true -> (x <? y)%float = false.
Proof.
  rewrite is_nan_spec, ltb_spec. intros ->. reflexivity.
Qed.

Section Callbacks.

Variables LAT LON : float.
Variable w : World.

(** X1: a location fix is skipped, with the warning, whenever one of the
    numbers that enter the sanity check is not a number: a coordinate of
    the fix, the coordinate of the vehicle it is compared with, or one of
    the two degrees-per-meter constants. *)
Theorem nan_fix_skipped st lat lon :
  location_updates_requested st = true ->
  let p := position_at w (S (now st)) in
  let p' := position_at w (S (S (now st))) in
  is_nan lat = true \/ is_nan lon = true \/
  is_nan (Telemetry.latitude_deg p) = true \/
  is_nan (Telemetry.longitude_deg p') = true \/
  is_nan LAT = true \/ is_nan LON = true ->
  exists st',
    deliver LAT LON w (LocationFix lat lon) st = Val tt st' /\
    log st' = log st ++
      on_callback_thread [Invoke (LocationFix lat lon);
                          GetPosition p; GetPosition p';
                          Cout (skipped_text lat lon)].
Proof.
  intros EN p p' N.
  unfold deliver. simpl. rewrite EN.
  unfold bind, invoke, callback, on_location, bind, telemetry_position, call.
  simpl. rewrite !now_emit. simpl.
  change (now (with_thread CallbackThread st)) with (now st).
  fold p p'.
  assert (within_follow_distance LAT LON
            (abs (Telemetry.latitude_deg p - lat))
            (abs (Telemetry.longitude_deg p' - lon)) = false) as Far.
  { unfold within_follow_distance. apply andb_false_iff.
    destruct N as [N | [N | [N | [N | [N | N]]]]].
    - left. apply nan_not_below, is_nan_div. left.
      apply is_nan_abs, is_nan_sub. auto.
    - right. apply nan_not_below, is_nan_div. left.
      apply is_nan_abs, is_nan_sub. auto.
    - left. apply nan_not_below, is_nan_div. left.
      apply is_nan_abs, is_nan_sub. auto.
    - right. apply nan_not_below, is_nan_div. left.
      apply is_nan_abs, is_nan_sub. auto.
    - left. apply nan_not_below, is_nan_div. auto.
    - right. apply nan_not_below, is_nan_div. auto. }
  rewrite Far. simpl. eexists. split; [reflexivity|].
  simpl. rewrite <- !app_assoc. reflexivity.
Qed.

(** X2: while the subscription is active, the flight-mode callback ends
    the process, with status 0, exactly when the mode it is given is not
    FollowMe; given FollowMe it reads the last location sent to the
    vehicle, prints it and returns. *)
Theorem flight_mode_callback_exits_iff st flight_mode :
  flight_mode_subscribed st = true ->
  let last_location := last_location_at w (S (now st)) in
  (flight_mode <> Telemetry.FollowMe /\
   exists st',
     deliver LAT LON w (FlightModeUpdate flight_mode) st = Exit 0 st' /\
     log st' = log st ++
       on_callback_thread [Invoke (FlightModeUpdate flight_mode);
                           Cout watchdog_text])
  \/
  (flight_mode = Telemetry.FollowMe /\
   exists st',
     deliver LAT LON w (FlightModeUpdate flight_mode) st = Val tt st' /\
     log st' = log st ++
       on_callback_thread
         [Invoke (FlightModeUpdate flight_mode);
          GetLastLocation last_location;
          Cout (flight_mode_text flight_mode last_location)]).
Proof.
  intros S last_location. unfold deliver. simpl. rewrite S.
  unfold bind, invoke, callback, on_flight_mode, bind. simpl.
  destruct (Telemetry.eqb flight_mode Telemetry.FollowMe) eqn:E; simpl.
  - right. apply FlightMode_eqb_eq in E. split; auto.
    eexists. split; [reflexivity|].
    simpl. rewrite now_emit.
    change (now (with_thread CallbackThread st)) with (now st).
    rewrite <- !app_assoc. reflexivity.
  - left. split.
    + intros ->. discriminate.
    + eexists. split; [reflexivity|].
      simpl. rewrite <- !app_assoc. reflexivity.
Qed.

End Callbacks.

Lemma nan_fix_skipped_witness :
  exists st',
    deliver Sample.lat_deg_per_meter Sample.lon_deg_per_meter Sample.calm
      (LocationFix nan 12%float) Sample.following = Val tt st' /\
    log st' = log Sample.following ++
      on_callback_thread [Invoke (LocationFix nan 12%float);
                          GetPosition Sample.hovering;
                          GetPosition Sample.hovering;
                          Cout (skipped_text nan 12%float)].
Proof.
  apply (nan_fix_skipped Sample.lat_deg_per_meter Sample.lon_deg_per_meter
           Sample.calm Sample.following nan 12%float).
  - reflexivity.
  - left. reflexivity.
Defined.

Lemma flight_mode_callback_exits_iff_witness :
  (Telemetry.FollowMe <> Telemetry.FollowMe /\
   exists st',
     deliver Sample.lat_deg_per_meter Sample.lon_deg_per_meter Sample.calm
       (FlightModeUpdate Telemetry.FollowMe) Sample.following = Exit 0 st' /\
     log st' = log Sample.following ++
       on_callback_thread [Invoke (FlightModeUpdate Telemetry.FollowMe);
                           Cout watchdog_text])
  \/
  (Telemetry.FollowMe = Telemetry.FollowMe /\
   exists st',
     deliver Sample.lat_deg_per_meter Sample.lon_deg_per_meter Sample.calm
       (FlightModeUpdate Telemetry.FollowMe) Sample.following = Val tt st' /\
     log st' = log Sample.following ++
       on_callback_thread
         [Invoke (FlightModeUpdate Telemetry.FollowMe);
          GetLastLocation
            (last_location_at Sample.calm (S (now Sample.following)));
          Cout (flight_mode_text Telemetry.FollowMe
                  (last_location_at Sample.calm
                     (S (now Sample.following))))]).
Proof.
  apply (flight_mode_callback_exits_iff Sample.lat_deg_per_meter
           Sample.lon_deg_per_meter Sample.calm Sample.following
           Telemetry.FollowMe).
  reflexivity.
Defined.

(** ** Runs of [main]: who does what *)

Lemma callback_event_kind ev :
  callback_event ev = true -> callback_kind ev = true.
Proof. destruct ev; simpl; auto. Qed.

Section Roles.

Variables LAT LON : float.
Variable w : World.

Lemma main_orderly_without_cerr fuel argv :
  triple not_cerr (orderly not_cerr) (main LAT LON w fuel argv)
    (fun _ => orderly not_cerr).
Proof. unfold_program. triple_auto. Qed.

End Roles.

(** X3: in every run of [main] the callbacks only print on [cout], read
    the position or the last location and set the target location: no
    connection, subscription, arm, takeoff, land, start or stop is ever
    issued from a callback, and none of them sleeps or writes to [cerr]. *)
Theorem callbacks_only_relay LAT LON w fuel argv ev :
  In (CallbackThread, ev)
     (log (final_state (main LAT LON w fuel argv initial_state))) ->
  callback_kind ev = true.
Proof.
  intro I.
  pose proof (main_orderly LAT LON w fuel argv initial_state
                (orderly_initial _)) as O.
  destruct (main LAT LON w fuel argv initial_state)
    as [r st'|c st'|st'|st']; simpl in I.
  1,3,4: destruct O as [_ F];
    apply callback_event_kind; exact (entries_ok_callback _ _ _ F I).
  destruct O as (l & tail & L & F & X). rewrite L in I.
  apply in_app_or in I as [I | I].
  { apply callback_event_kind. exact (entries_ok_callback _ _ _ F I). }
  destruct X as [m _ _ -> | _ -> | ev' text _ _ _ ->].
  - destruct I as [I | [I | []]]; injection I as <-; reflexivity.
  - apply in_on_main_thread in I as [I _]. discriminate.
  - apply in_on_main_thread in I as [I _]. discriminate.
Qed.

Lemma callbacks_only_relay_witness :
  callback_kind
    (SetTargetLocation
       {| FollowMe.latitude_deg := 57.00001%float;
          FollowMe.longitude_deg := 12.00001%float |}) = true.
Proof.
  apply (callbacks_only_relay Sample.lat_deg_per_meter
           Sample.lon_deg_per_meter Sample.relaying 5 Sample.argv).
  vm_compute. repeat (first [left; reflexivity | right]).
Defined.

(** X4: in every run of [main], a line on [cerr] is the last thing that
    happens: it follows a command that failed and the process exits with
    [EXIT_FAILURE].  In particular a refused connection, reported on
    [cout] with a return of 1, never goes through [cerr]. *)
Theorem cerr_only_after_failed_command LAT LON w fuel argv t text :
  In (t, Cerr text)
     (log (final_state (main LAT LON w fuel argv initial_state))) ->
  exists st' l ev,
    main LAT LON w fuel argv initial_state = Exit EXIT_FAILURE st' /\
    log st' = l ++ on_main_thread [ev; Cerr text] /\
    failed_command ev = true /\
    forall t' text', ~ In (t', Cerr text') l.
Proof.
  intro I.
  pose proof (main_orderly_without_cerr LAT LON w fuel argv initial_state
                (orderly_initial _)) as O.
  assert (forall l, forallb (entry_ok not_cerr) l = true ->
          forall t' text', ~ In (t', Cerr text') l) as Quiet.
  { intros l F [|] text' I'.
    - destruct (entries_ok_main _ _ _ F I') as [A _]. discriminate.
    - pose proof (entries_ok_callback _ _ _ F I'). discriminate. }
  destruct (main LAT LON w fuel argv initial_state)
    as [r st'|c st'|st'|st']; simpl in I.
  1,3,4: destruct O as [_ F]; exfalso; exact (Quiet _ F _ _ I).
  destruct O as (l & tail & L & F & X). rewrite L in I.
  apply in_app_or in I as [I | I]; [exfalso; exact (Quiet _ F _ _ I)|].
  destruct X as [m _ _ -> | _ -> | ev' text' -> F' A ->].
  - destruct I as [I | [I | []]]; discriminate.
  - destruct I as [I | []]. discriminate.
  - destruct I as [I | [I | []]].
    + injection I as _ ->. discriminate A.
    + injection I as _ <-. exists st', l, ev'. auto.
Qed.

Lemma cerr_only_after_failed_command_witness :
  exists st' l ev,
    main Sample.lat_deg_per_meter Sample.lon_deg_per_meter
      Sample.stop_refused 5 Sample.argv initial_state
    = Exit EXIT_FAILURE st' /\
    log st' = l ++ on_main_thread
      [ev; Cerr (follow_me_error_text "Failed to stop FollowMe mode"
                   (FollowMe.Other 5))] /\
    failed_command ev = true /\
    forall t' text', ~ In (t', Cerr text') l.
Proof.
  apply (cerr_only_after_failed_command Sample.lat_deg_per_meter
           Sample.lon_deg_per_meter Sample.stop_refused 5 Sample.argv
           MainThread).
  vm_compute. repeat (first [left; reflexivity | right]).
Defined.

(** ** The blocks of [main], one by one *)

(** X5: when the block that starts follow-me completes, the main thread
    has sent the configuration (minimum height 8, distance 1, direction
    front), started follow-me with success, installed the flight-mode
    callback and requested location updates from localhost:65191, in this
    order, and both callbacks are installed.  The result of [set_config]
    can be anything: it is overwritten before it is looked at. *)
Theorem start_follow_me_sequence LAT LON w st st' :
  thread st = MainThread ->
  start_follow_me LAT LON w st = Val tt st' ->
  flight_mode_subscribed st' = true /\
  location_updates_requested st' = true /\
  exists r,
    mlog st' = mlog st ++
      [SetConfig follow_config r; Start FollowMe.Success;
       SubscribeFlightMode true;
       RequestLocationUpdates "localhost" 65191 0].
Proof.
  intros T E. pose proof (start_follow_me_outcomes LAT LON w st T) as O.
  rewrite E in O. destruct O as (_ & _ & S & L & r & M). eauto.
Qed.

Lemma start_follow_me_sequence_witness :
  let st' :=
    final_state (start_follow_me Sample.lat_deg_per_meter
                   Sample.lon_deg_per_meter Sample.calm initial_state) in
  flight_mode_subscribed st' = true /\
  location_updates_requested st' = true /\
  exists r,
    mlog st' = mlog initial_state ++
      [SetConfig follow_config r; Start FollowMe.Success;
       SubscribeFlightMode true;
       RequestLocationUpdates "localhost" 65191 0].
Proof.
  apply (start_follow_me_sequence Sample.lat_deg_per_meter
           Sample.lon_deg_per_meter Sample.calm initial_state); reflexivity.
Defined.

(** X6: the discovery block does not wait for ever: if from some moment
    [n] on the environment has a discovery to report whenever the main
    thread is inside the SDK, then [n + 2] tests of the flag are enough
    for the block to end: it proceeds, or calls [exit] (with status 1
    unless it is the watchdog's), or runs into [front()] of an empty
    vector. *)
Theorem discover_ends LAT LON w n fuel st :
  thread st = MainThread ->
  (forall t, (n <= t)%nat -> exists uuid, In (Discovered uuid) (inbox w t)) ->
  (n + 1 < fuel)%nat ->
  match discover LAT LON w fuel st with
  | Val _ _ | Undefined _ => True
  | Exit c _ => c = 1 \/ c = 0 /\ flight_mode_subscribed st = true
  | OutOfFuel _ => False
  end.
Proof.
  intros T L N.
  pose proof (discover_terminates LAT LON w n fuel st L N) as D.
  pose proof (discover_outcomes LAT LON w fuel st T) as O.
  destruct (discover LAT LON w fuel st) as [uuid st'|c st'|st'|st']; auto.
  - destruct O as [[-> S] | [-> _]]; auto.
  - exact (D st' eq_refl).
Qed.

Lemma discover_ends_witness :
  match discover Sample.lat_deg_per_meter Sample.lon_deg_per_meter
          Sample.beacon 2 initial_state with
  | Val _ _ | Undefined _ => True
  | Exit c _ => c = 1 \/ c = 0 /\ flight_mode_subscribed initial_state = true
  | OutOfFuel _ => False
  end.
Proof.
  apply (discover_ends Sample.lat_deg_per_meter Sample.lon_deg_per_meter
           Sample.beacon 0 2 initial_state).
  - reflexivity.
  - intros t _. exists 7. simpl. auto.
  - lia.
Defined.

(** X7: the preflight block does not wait for ever: if from some moment
    [n] on the health checks pass and the reported relative altitude is
    not below 2.4, then [n + 1] tests of each loop condition are enough
    for the block to end, by completing or by an [exit]. *)
Theorem preflight_ends LAT LON w n fuel st :
  thread st = MainThread ->
  (forall t, (n <= t)%nat -> health_all_ok_at w t = true) ->
  (forall t, (n <= t)%nat ->
     below_takeoff_altitude (position_at w t) = false) ->
  (n < fuel)%nat ->
  match preflight LAT LON w fuel st with
  | Val _ _ => True
  | Exit c _ => c = EXIT_FAILURE \/ c = 0 /\ flight_mode_subscribed st = true
  | Undefined _ | OutOfFuel _ => False
  end.
Proof.
  intros T H A N.
  pose proof (preflight_terminates LAT LON w n fuel st H A N) as D.
  pose proof (preflight_outcomes LAT LON w fuel st T) as O.
  destruct (preflight LAT LON w fuel st) as [[] st'|c st'|st'|st']; auto.
  - destruct O as [[-> S] | [[-> _] | [-> _]]]; auto.
  - exact (D st' eq_refl).
Qed.

Lemma preflight_ends_witness :
  match preflight Sample.lat_deg_per_meter Sample.lon_deg_per_meter
          Sample.calm 1 initial_state with
  | Val _ _ => True
  | Exit c _ =>
      c = EXIT_FAILURE \/ c = 0 /\ flight_mode_subscribed initial_state = true
  | Undefined _ | OutOfFuel _ => False
  end.
Proof.
  apply (preflight_ends Sample.lat_deg_per_meter Sample.lon_deg_per_meter
           Sample.calm 0 1 initial_state).
  - reflexivity.
  - reflexivity.
  - reflexivity.
  - lia.
Defined.

(** X8: the shutdown block does not wait for ever: if from some moment
    [n] on the vehicle is reported not to be in the air, then [n + 1]
    polls are enough for the block to end; it returns 0, or exits with
    [EXIT_FAILURE] after a failed stop or land, or is ended by the
    watchdog before the subscription is cancelled. *)
Theorem shutdown_ends LAT LON w n fuel st :
  thread st = MainThread ->
  (forall t, (n <= t)%nat -> in_air_at w t = false) ->
  (n < fuel)%nat ->
  match shutdown LAT LON w fuel st with
  | Val r _ => r = 0
  | Exit c _ => c = EXIT_FAILURE \/ c = 0 /\ flight_mode_subscribed st = true
  | Undefined _ | OutOfFuel _ => False
  end.
Proof.
  intros T L N.
  pose proof (shutdown_terminates LAT LON w n fuel st L N) as D.
  pose proof (shutdown_outcomes LAT LON w fuel st T) as O.
  destruct (shutdown LAT LON w fuel st) as [r st'|c st'|st'|st']; auto.
  - now destruct O.
  - destruct O as [(-> & S & _) | [[-> _] | [-> _]]]; auto.
  - exact (D st' eq_refl).
Qed.

Lemma shutdown_ends_witness :
  match shutdown Sample.lat_deg_per_meter Sample.lon_deg_per_meter
          Sample.calm 1 Sample.following with
  | Val r _ => r = 0
  | Exit c _ =>
      c = EXIT_FAILURE \/
      c = 0 /\ flight_mode_subscribed Sample.following = true
  | Undefined _ | OutOfFuel _ => False
  end.
Proof.
  apply (shutdown_ends Sample.lat_deg_per_meter Sample.lon_deg_per_meter
           Sample.calm 0 1 Sample.following).
  - reflexivity.
  - reflexivity.
  - lia.
Defined.

(** ** Runs of [main]: the targets sent to the vehicle *)

Section Targets.

Variables LAT LON : float.
Variable w : World.

#[local] Abbreviation J := (targets_checked LAT LON).

Lemma targets_checked_app l new : J l -> J new -> J (l ++ new).
Proof.
  intros Hl Hn i t target E.
  destruct (Nat.lt_ge_cases i (List.length l)) as [Lt | Ge].
  - rewrite nth_error_app1 in E by exact Lt.
    destruct (Hl i t target E) as (j & p & p' & -> & T & E1 & E2 & C).
    exists j, p, p'. repeat split; try tauto.
    + rewrite nth_error_app1 by lia. exact E1.
    + rewrite nth_error_app1 by lia. exact E2.
  - rewrite nth_error_app2 in E by exact Ge.
    destruct (Hn _ t target E) as (j & p & p' & Ei & T & E1 & E2 & C).
    exists (List.length l + j)%nat, p, p'. repeat split; try tauto.
    + lia.
    + rewrite nth_error_app2 by lia.
      replace (List.length l + j - List.length l)%nat with j by lia.
      exact E1.
    + rewrite nth_error_app2 by lia.
      replace (S (List.length l + j) - List.length l)%nat with (S j) by lia.
      exact E2.
Qed.

Lemma targets_checked_without_targets t evs :
  forallb sets_no_target evs = true -> J (map (pair t) evs).
Proof.
  intros F i t' target E. exfalso.
  apply nth_error_In in E. apply in_map_iff in E as (ev & E & I).
  injection E as _ ->. rewrite forallb_forall in F.
  specialize (F _ I). discriminate.
Qed.

Lemma targets_checked_emit st ev :
  sets_no_target ev = true -> J (log st) -> J (log (emit ev st)).
Proof.
  intros B H. simpl. apply targets_checked_app; auto.
  apply (targets_checked_without_targets (thread st) [ev]).
  simpl. now rewrite B.
Qed.

Lemma targets_checked_deliver d : keeps J (deliver LAT LON w d).
Proof.
  intros st H. unfold deliver.
  destruct (callback_enabled d st); [|exact H].
  destruct d as [uuid | m | lat lon].
  - simpl. rewrite <- app_assoc. apply targets_checked_app; auto.
    apply (targets_checked_without_targets CallbackThread
             [Invoke (Discovered uuid); Cout _]).
    reflexivity.
  - unfold bind, invoke, callback, on_flight_mode, bind. simpl.
    destruct (Telemetry.eqb m Telemetry.FollowMe); simpl;
      rewrite <- ?app_assoc; apply targets_checked_app; auto.
    + apply (targets_checked_without_targets CallbackThread
               [Invoke (FlightModeUpdate m); GetLastLocation _; Cout _]).
      reflexivity.
    + apply (targets_checked_without_targets CallbackThread
               [Invoke (FlightModeUpdate m); Cout _]).
      reflexivity.
  - unfold bind, invoke, callback, on_location, bind, telemetry_position,
      call. simpl.
    match goal with
    | |- context [if ?c then _ else _] => destruct c eqn:C
    end; simpl; rewrite <- ?app_assoc; apply targets_checked_app; auto.
    + intros i t target E.
      unfold within_follow_distance in C.
      apply andb_true_iff in C as [C1 C2].
      destruct i as [|[|[|[|i]]]]; simpl in E; try discriminate.
      * injection E as <- <-. eexists 1%nat, _, _.
        repeat split; try reflexivity; assumption.
      * destruct i; discriminate.
    + apply (targets_checked_without_targets CallbackThread
               [Invoke (LocationFix lat lon); GetPosition _; GetPosition _;
                Cout _]).
      reflexivity.
Qed.

Lemma main_keeps_targets_checked fuel argv :
  keeps J (main LAT LON w fuel argv).
Proof.
  unfold_program. unfold action_error_exit, follow_me_error_exit.
  keeps_auto
    (@keeps_event J (fun _ ev => sets_no_target ev = true)
       targets_checked_emit)
    (@keeps_sdk LAT LON w J targets_checked_deliver).
Qed.

End Targets.

(** X9: in every run of [main], every target location handed to the
    follow-me plugin was set by the location callback right after it read
    the vehicle position twice, and passed the sanity check against those
    reads: both divided differences are below
    [MAX_FOLLOW_DISTANCE_METERS].  The main thread never sets a target. *)
Theorem forwarded_targets_passed_check LAT LON w fuel argv i t target :
  nth_error (log (final_state (main LAT LON w fuel argv initial_state))) i
  = Some (t, SetTargetLocation target) ->
  exists j p p',
    i = S (S j) /\
    t = CallbackThread /\
    nth_error (log (final_state (main LAT LON w fuel argv initial_state))) j
    = Some (CallbackThread, GetPosition p) /\
    nth_error (log (final_state (main LAT LON w fuel argv initial_state)))
      (S j)
    = Some (CallbackThread, GetPosition p') /\
    (abs (Telemetry.latitude_deg p - FollowMe.latitude_deg target) / LAT
       <? MAX_FOLLOW_DISTANCE_METERS)%float = true /\
    (abs (Telemetry.longitude_deg p' - FollowMe.longitude_deg target) / LON
       <? MAX_FOLLOW_DISTANCE_METERS)%float = true.
Proof.
  apply (main_keeps_targets_checked LAT LON w fuel argv initial_state).
  intros [|k] t' target' E; discriminate.
Qed.

Lemma forwarded_targets_passed_check_witness :
  exists j p p',
    25%nat = S (S j) /\
    CallbackThread = CallbackThread /\
    nth_error
      (log (final_state
              (main Sample.lat_deg_per_meter Sample.lon_deg_per_meter
                 Sample.relaying 5 Sample.argv initial_state))) j
    = Some (CallbackThread, GetPosition p) /\
    nth_error
      (log (final_state
              (main Sample.lat_deg_per_meter Sample.lon_deg_per_meter
                 Sample.relaying 5 Sample.argv initial_state))) (S j)
    = Some (CallbackThread, GetPosition p') /\
    (abs (Telemetry.latitude_deg p - 57.00001) / Sample.lat_deg_per_meter
       <? MAX_FOLLOW_DISTANCE_METERS)%float = true /\
    (abs (Telemetry.longitude_deg p' - 12.00001) / Sample.lon_deg_per_meter
       <? MAX_FOLLOW_DISTANCE_METERS)%float = true.
Proof.
  apply (forwarded_targets_passed_check Sample.lat_deg_per_meter
           Sample.lon_deg_per_meter Sample.relaying 5 Sample.argv 25
           CallbackThread
           {| FollowMe.latitude_deg := 57.00001%float;
              FollowMe.longitude_deg := 12.00001%float |}).
  vm_compute. reflexivity.
Defined.

(** ** Runs of [main]: from the command line to the landing *)

Section Flights.

Variables LAT LON : float.
Variable w : World.

(** Up to the connection: [main] ends there, or goes on to [fly] with
    nothing installed and the counter at 0. *)
Lemma main_before_fly fuel argv :
  (argv = [] /\
   main LAT LON w fuel argv initial_state = Undefined initial_state)
  \/
  (exists bin_name st',
     List.length argv <> 2%nat /\
     nth_error argv 0 = Some bin_name /\
     main LAT LON w fuel argv initial_state = Val 1 st' /\
     mlog st' = [Cout (usage_text bin_name)])
  \/
  (exists url c st',
     List.length argv = 2%nat /\
     nth_error argv 1 = Some url /\
     c <> ConnectionResult.Success /\
     main LAT LON w fuel argv initial_state = Val 1 st' /\
     mlog st' = [AddAnyConnection url c; Cout (connection_failed_text c)])
  \/
  (exists url st,
     List.length argv = 2%nat /\
     nth_error argv 1 = Some url /\
     thread st = MainThread /\
     count st = 0 /\
     flight_mode_subscribed st = false /\
     mlog st = [AddAnyConnection url ConnectionResult.Success] /\
     main LAT LON w fuel argv initial_state = fly LAT LON w fuel st).
Proof.
  unfold main. cbv zeta.
  destruct (Z.eqb_spec (Z.of_nat (List.length argv)) 2) as [L|L].
  - right. right.
    assert (List.length argv = 2%nat) as L' by lia. clear L.
    destruct argv as [|bin_name [|url [|x argv]]]; try discriminate L'.
    change (argv_at [bin_name; url] 1) with (@ret string url).
    run. sdk_step R; [|no_watchdog]. run.
    destruct (ConnectionResult.eqb _ _) eqn:C; run.
    + right. apply ConnectionResult_eqb_eq in C. rewrite C.
      eexists url, _. repeat split; try reflexivity; try flag.
      trace_done.
    + left. eexists url, _, _. repeat split; try reflexivity.
      * intro E. rewrite E in C. discriminate.
      * unfold connection_failed_text. trace_done.
  - destruct argv as [|bin_name rest].
    + left. split; reflexivity.
    + right. left. exists bin_name. eexists.
      repeat split; try reflexivity. simpl in *. lia.
Qed.

(** How a flight that was started can end, but for the exits. *)
Lemma fly_outcomes fuel st :
  thread st = MainThread ->
  count st = 0 ->
  match fly LAT LON w fuel st with
  | Val r st' =>
      r = 0 /\
      exists f, flight_ok f /\ (landing_wait f < fuel)%nat /\
                mlog st' = mlog st ++ flight_trace f
  | Exit _ _ => True
  | Undefined st' =>
      exists n uuids,
        (List.length uuids <= 1)%nat /\
        mlog st' = mlog st ++ discovery_head n ++
          [SystemUuids uuids; SystemUuids []]
  | OutOfFuel _ => True
  end.
Proof.
  intros T C. unfold fly, approach. rewrite !bind_run.
  pose proof (discover_outcomes LAT LON w fuel st T) as O1.
  destruct (discover LAT LON w fuel st) as [uuid st1|c1 st1|st1|st1];
    auto.
  destruct O1 as (T1 & _ & C1 & _ & n0 & uuids & uuids' & L1 & H1 & M1).
  rewrite !bind_run.
  pose proof (preflight_outcomes LAT LON w fuel st1 T1) as O2.
  destruct (preflight LAT LON w fuel st1) as [[] st2|c2 st2|st2|st2];
    auto; [|contradiction].
  destruct O2 as (T2 & _ & C2 & n1 & armed & in_air & cl & K & M2).
  rewrite !bind_run.
  pose proof (start_follow_me_outcomes LAT LON w st2 T2) as O3.
  destruct (start_follow_me LAT LON w st2) as [[] st3|c3 st3|st3|st3];
    auto; try contradiction.
  destruct O3 as (T3 & C3 & _ & _ & r3 & M3).
  assert (count st3 = 0) as C0 by congruence.
  pose proof (follow_loop_outcomes LAT LON w fuel st3 T3) as O4.
  rewrite C0 in O4.
  specialize (O4 ltac:(unfold MAX_SECONDS_TO_FOLLOW; lia)).
  destruct (follow_loop LAT LON w fuel st3) as [[] st4|c4 st4|st4|st4];
    auto; try contradiction.
  destruct O4 as (T4 & n2 & C4 & B4 & M4).
  pose proof (shutdown_outcomes LAT LON w fuel st4 T4) as O5.
  destruct (shutdown LAT LON w fuel st4) as [r st5|c5 st5|st5|st5];
    auto; try contradiction.
  destruct O5 as (-> & n3 & N3 & M5). split; [reflexivity|].
  exists {| discovery_wait := n0; uuids_counted := uuids;
            uuids_taken := uuids'; system_uuid := uuid;
            health_wait := n1; was_armed := armed; was_in_air := in_air;
            climb := cl; config_result := r3; seconds_followed := n2;
            landing_wait := n3 |}.
  unfold flight_ok, flight_trace, MAX_SECONDS_TO_FOLLOW in *.
  cbn [discovery_wait uuids_counted uuids_taken system_uuid health_wait
       was_armed was_in_air climb config_result seconds_followed
       landing_wait].
  repeat split; auto; try lia.
  rewrite M5, M4, M3, M2, M1.
  replace (count st4 =? 60) with (n2 =? Z.to_nat 60)%nat.
  2:{ destruct (Z.eqb_spec (count st4) 60),
        (Nat.eqb_spec n2 (Z.to_nat 60)); auto; lia. }
  rewrite <- !app_assoc. reflexivity.
Qed.

(** A flight that finds the environment cooperating from time [n] on
    does not wait for ever. *)
Lemma fly_terminates n fuel st :
  thread st = MainThread ->
  count st = 0 ->
  (forall t, (n <= t)%nat -> exists uuid, In (Discovered uuid) (inbox w t)) ->
  (forall t, (n <= t)%nat -> health_all_ok_at w t = true) ->
  (forall t, (n <= t)%nat ->
     below_takeoff_altitude (position_at w t) = false) ->
  (forall t, (n <= t)%nat -> in_air_at w t = false) ->
  (n + 1 < fuel)%nat ->
  (Z.to_nat MAX_SECONDS_TO_FOLLOW <= fuel)%nat ->
  forall st', fly LAT LON w fuel st <> OutOfFuel st'.
Proof.
  intros T C D H A G N F st'. unfold fly, approach. rewrite !bind_run.
  pose proof (discover_outcomes LAT LON w fuel st T) as O1.
  pose proof (discover_terminates LAT LON w n fuel st D N) as T1.
  destruct (discover LAT LON w fuel st) as [uuid st1|c1 st1|st1|st1];
    try discriminate.
  2:{ exfalso. eapply T1. reflexivity. }
  destruct O1 as (S1 & _ & C1 & _). clear T1.
  rewrite !bind_run.
  pose proof (preflight_outcomes LAT LON w fuel st1 S1) as O2.
  pose proof (preflight_terminates LAT LON w n fuel st1 H A
                ltac:(lia)) as T2.
  destruct (preflight LAT LON w fuel st1) as [[] st2|c2 st2|st2|st2];
    try discriminate.
  2:{ exfalso. eapply T2. reflexivity. }
  destruct O2 as (S2 & _ & C2 & _). clear T2.
  rewrite !bind_run.
  pose proof (start_follow_me_outcomes LAT LON w st2 S2) as O3.
  destruct (start_follow_me LAT LON w st2) as [[] st3|c3 st3|st3|st3];
    try discriminate; try contradiction.
  destruct O3 as (S3 & C3 & _).
  assert (count st3 = 0) as C0 by congruence.
  pose proof (follow_loop_outcomes LAT LON w fuel st3 S3) as O4.
  rewrite C0 in O4.
  specialize (O4 ltac:(unfold MAX_SECONDS_TO_FOLLOW; lia)).
  destruct (follow_loop LAT LON w fuel st3) as [[] st4|c4 st4|st4|st4];
    try discriminate.
  2:{ exfalso. unfold MAX_SECONDS_TO_FOLLOW in *. lia. }
  apply (shutdown_terminates LAT LON w n fuel st4 G ltac:(lia)).
Qed.

End Flights.

(** X10: [main] returns only 0 or 1.  It returns 1 only after the usage
    text, or after a connection attempt that failed and the line that
    says so, and did nothing else.  It returns 0 only after a complete
    flight: the connection, the discovery and the choice of the system,
    the wait for the health checks, arming and takeoff where needed, the
    start of follow-me with both callbacks installed, at most 60 rounds of
    the follow loop, then stop, unsubscribe, land and the wait for the
    landing. *)
Theorem main_returns LAT LON w fuel argv r st' :
  main LAT LON w fuel argv initial_state = Val r st' ->
  (r = 1 /\
   ((exists bin_name,
       List.length argv <> 2%nat /\
       nth_error argv 0 = Some bin_name /\
       mlog st' = [Cout (usage_text bin_name)])
    \/
    (exists url c,
       nth_error argv 1 = Some url /\
       c <> ConnectionResult.Success /\
       mlog st' = [AddAnyConnection url c; Cout (connection_failed_text c)])))
  \/
  (r = 0 /\
   exists url f,
     nth_error argv 1 = Some url /\
     flight_ok f /\
     (landing_wait f < fuel)%nat /\
     mlog st' =
       AddAnyConnection url ConnectionResult.Success :: flight_trace f).
Proof.
  intro E.
  destruct (main_before_fly LAT LON w fuel argv)
    as [(_ & U) | [(bin_name & s & L & N & V & M)
        | [(url & c & s & _ & N & C & V & M)
        | (url & s & _ & N & T & C & _ & M & F)]]].
  - rewrite U in E. discriminate.
  - rewrite V in E. injection E as <- <-. left. split; [reflexivity|].
    left. exists bin_name. auto.
  - rewrite V in E. injection E as <- <-. left. split; [reflexivity|].
    right. exists url, c. auto.
  - rewrite F in E. pose proof (fly_outcomes LAT LON w fuel s T C) as O.
    rewrite E in O. destruct O as (-> & f & K & W & Mf).
    right. split; [reflexivity|]. exists url, f. repeat split; auto.
    + apply K.
    + apply K.
    + apply K.
    + apply K.
    + rewrite Mf, M. reflexivity.
Qed.

Lemma main_returns_witness :
  let st' :=
    final_state (main Sample.lat_deg_per_meter Sample.lon_deg_per_meter
                   Sample.uneventful 5 Sample.argv initial_state) in
  (0 = 1 /\
   ((exists bin_name,
       List.length Sample.argv <> 2%nat /\
       nth_error Sample.argv 0 = Some bin_name /\
       mlog st' = [Cout (usage_text bin_name)])
    \/
    (exists url c,
       nth_error Sample.argv 1 = Some url /\
       c <> ConnectionResult.Success /\
       mlog st' = [AddAnyConnection url c; Cout (connection_failed_text c)])))
  \/
  (0 = 0 /\
   exists url f,
     nth_error Sample.argv 1 = Some url /\
     flight_ok f /\
     (landing_wait f < 5)%nat /\
     mlog st' =
       AddAnyConnection url ConnectionResult.Success :: flight_trace f).
Proof.
  apply (main_returns Sample.lat_deg_per_meter Sample.lon_deg_per_meter
           Sample.uneventful 5 Sample.argv 0
           (final_state
              (main Sample.lat_deg_per_meter Sample.lon_deg_per_meter
                 Sample.uneventful 5 Sample.argv initial_state))).
  vm_compute. reflexivity.
Defined.

(** X11: the main thread reaches undefined behaviour in two ways only:
    started without even a program name, [usage(argv[0])] reads past the
    arguments; and when the second read of the list of systems is empty,
    [front()] is taken of an empty vector.  In particular the counter of
    the follow loop never overflows. *)
Theorem main_undefined_only LAT LON w fuel argv st' :
  main LAT LON w fuel argv initial_state = Undefined st' ->
  (argv = [] /\ st' = initial_state)
  \/
  exists url n uuids,
    nth_error argv 1 = Some url /\
    (List.length uuids <= 1)%nat /\
    mlog st' =
      AddAnyConnection url ConnectionResult.Success :: discovery_head n ++
      [SystemUuids uuids; SystemUuids []].
Proof.
  intro E.
  destruct (main_before_fly LAT LON w fuel argv)
    as [(A & U) | [(bin_name & s & L & N & V & M)
        | [(url & c & s & _ & N & C & V & M)
        | (url & s & _ & N & T & C & _ & M & F)]]].
  - rewrite U in E. injection E as <-. auto.
  - rewrite V in E. discriminate.
  - rewrite V in E. discriminate.
  - rewrite F in E. pose proof (fly_outcomes LAT LON w fuel s T C) as O.
    rewrite E in O. destruct O as (n & uuids & L & Mf).
    right. exists url, n, uuids. repeat split; auto.
    rewrite Mf, M. reflexivity.
Qed.

Lemma main_undefined_only_witness :
  let st' :=
    final_state (main Sample.lat_deg_per_meter Sample.lon_deg_per_meter
                   Sample.vanishing 5 Sample.argv initial_state) in
  (Sample.argv = [] /\ st' = initial_state)
  \/
  exists url n uuids,
    nth_error Sample.argv 1 = Some url /\
    (List.length uuids <= 1)%nat /\
    mlog st' =
      AddAnyConnection url ConnectionResult.Success :: discovery_head n ++
      [SystemUuids uuids; SystemUuids []].
Proof.
  apply (main_undefined_only Sample.lat_deg_per_meter
           Sample.lon_deg_per_meter Sample.vanishing 5 Sample.argv
           (final_state
              (main Sample.lat_deg_per_meter Sample.lon_deg_per_meter
                 Sample.vanishing 5 Sample.argv initial_state))).
  vm_compute. reflexivity.
Defined.

(** X12: if from some moment [n] on the environment cooperates (a system
    is reported as discovered, the health checks pass, the vehicle is not
    below the takeoff altitude, and it is reported as not in the air),
    then [main] ends: no loop of it needs more than [max (n + 2) 60] tests
    of its condition.  The follow loop needs no assumption: its counter
    bounds it. *)
Theorem main_ends LAT LON w n fuel argv :
  (forall t, (n <= t)%nat -> exists uuid, In (Discovered uuid) (inbox w t)) ->
  (forall t, (n <= t)%nat -> health_all_ok_at w t = true) ->
  (forall t, (n <= t)%nat ->
     below_takeoff_altitude (position_at w t) = false) ->
  (forall t, (n <= t)%nat -> in_air_at w t = false) ->
  (n + 1 < fuel)%nat ->
  (Z.to_nat MAX_SECONDS_TO_FOLLOW <= fuel)%nat ->
  match main LAT LON w fuel argv initial_state with
  | OutOfFuel _ => False
  | _ => True
  end.
Proof.
  intros D H A G N F.
  destruct (main_before_fly LAT LON w fuel argv)
    as [(_ & U) | [(bin_name & s & _ & _ & V & _)
        | [(url & c & s & _ & _ & _ & V & _)
        | (url & s & _ & _ & T & C & _ & _ & E)]]];
    try (rewrite U; exact I); try (rewrite V; exact I).
  rewrite E.
  pose proof (fly_terminates LAT LON w n fuel s T C D H A G N F) as O.
  destruct (fly LAT LON w fuel s) as [r st'|c st'|st'|st']; auto.
  now apply (O st').
Qed.

Lemma main_ends_witness :
  match main Sample.lat_deg_per_meter Sample.lon_deg_per_meter
          Sample.beacon 60 Sample.argv initial_state with
  | OutOfFuel _ => False
  | _ => True
  end.
Proof.
  apply (main_ends Sample.lat_deg_per_meter Sample.lon_deg_per_meter
           Sample.beacon 0 60 Sample.argv).
  - intros t _. exists 7. simpl. auto.
  - reflexivity.
  - reflexivity.
  - reflexivity.
  - lia.
  - unfold MAX_SECONDS_TO_FOLLOW. lia.
Defined.
